(** * FocusFlow task-state engine: reducer, analytics and storage gateway

    Shallow embedding of
      - src/lib/types.ts                (domain types),
      - src/lib/analytics.ts            (computeCompletionHistory, computeAnalytics),
      - src/lib/storage.ts              (loadState, saveState, getInitialState),
      - src/hooks/useDashboardState.ts  (reducer, persist effect),
      - the handlers of AppShell that call the engine
        (handleCreateTask, handleComplete),
    followed by the properties stated about them. *)

From Stdlib Require Import Bool Arith List String Ascii ZArith QArith Lia.
From Stdlib Require Import Permutation Sorted.
Import ListNotations.
Set Warnings "-register-all".
Local Close Scope Q_scope.
Local Open Scope nat_scope.
Local Open Scope string_scope.
Local Open Scope list_scope.

(* ================================================================== *)
(** ** The parts of JavaScript the engine relies on *)

Module JS.

(** A property of type [T | null] that may also be absent ([?:]). *)
Inductive nullable (A : Type) : Type :=
| Undefined
| Null
| Val (a : A).
Arguments Undefined {A}.
Arguments Null {A}.
Arguments Val {A} a.

(** [x ?? d] *)
Definition nullish_or {A} (x : nullable A) (d : A) : A :=
  match x with Val a => a | _ => d end.

(** [x ?? y] where [y] may itself be null or undefined. *)
Definition nullish_chain {A} (x y : nullable A) : nullable A :=
  match x with Val a => Val a | _ => y end.

(** [x != null] (loose inequality: false for null and for undefined). *)
Definition not_null {A} (x : nullable A) : bool :=
  match x with Val _ => true | _ => false end.

(** Truthiness of a string: every string but the empty one. *)
Definition truthy_string (s : string) : bool := negb (s =? "").

(** Truthiness of a [string | null | undefined]. *)
Definition truthy (x : nullable string) : bool :=
  match x with Val s => truthy_string s | _ => false end.

(** Numbers.  Finite values are kept as rationals; the rounding of
    IEEE doubles and the sign of zero are not represented. *)
Inductive number : Type :=
| NaN
| Infinity (negative : bool)
| Fin (q : Q).

(** [Number.isFinite] on a value already known to be a number. *)
Definition isFinite (n : number) : bool :=
  match n with Fin _ => true | _ => false end.

Definition of_nat (n : nat) : number := Fin (inject_Z (Z.of_nat n)).

(** [a / b] for two array lengths. *)
Definition div_length (a b : nat) : number :=
  match b with
  | O => match a with O => NaN | S _ => Infinity false end
  | S _ => Fin (Z.of_nat a # Pos.of_nat b)%Q
  end.

(** Strings are sequences of code units; this development keeps the
    code units below 256, so the white space and line terminators that
    [String.prototype.trim] strips are TAB, LF, VT, FF, CR, SP and NBSP. *)
Definition is_space (c : ascii) : bool :=
  let n := nat_of_ascii c in
  (((9 <=? n) && (n <=? 13)) || (n =? 32) || (n =? 160))%nat.

Fixpoint trimStart (s : string) : string :=
  match s with
  | EmptyString => EmptyString
  | String c r => if is_space c then trimStart r else s
  end.

Fixpoint trimEnd (s : string) : string :=
  match s with
  | EmptyString => EmptyString
  | String c r =>
      match trimEnd r with
      | EmptyString => if is_space c then EmptyString else String c EmptyString
      | r' => String c r'
      end
  end.

Definition trim (s : string) : string := trimEnd (trimStart s).

(** [s.slice(0, n)] *)
Definition slice0 (n : nat) (s : string) : string := substring 0 n s.

(** Values as [JSON.parse] returns them and [JSON.stringify] reads them.
    An object is its list of own properties in insertion order; a later
    binding of a key shadows an earlier one. *)
Inductive value : Type :=
| VUndef
| VNull
| VBool (b : bool)
| VNum (n : number)
| VStr (s : string)
| VArr (items : list value)
| VObj (props : list (string * value)).

Definition lookup (k : string) (props : list (string * value)) : value :=
  fold_left (fun found p => if k =? fst p then snd p else found) props VUndef.

(** [v.k] for one of the property names the gateway reads
    (none of them is an index, [length] or an inherited name):
    arrays have no such property. *)
Definition get (v : value) (k : string) : value :=
  match v with
  | VObj props => lookup k props
  | _ => VUndef
  end.

Definition keys (v : value) : list string :=
  match v with
  | VObj props => map fst props
  | _ => []
  end.

(** [typeof v === "object"] *)
Definition typeof_object (v : value) : bool :=
  match v with
  | VNull | VArr _ | VObj _ => true
  | _ => false
  end.

(** What [JSON.parse] reads back from the text [JSON.stringify] writes
    for a value other than [undefined]: properties holding [undefined]
    are left out, [undefined] inside an array and numbers that are not
    finite become [null]. *)
Fixpoint jsonOf (v : value) : value :=
  match v with
  | VUndef => VNull
  | VNull => VNull
  | VBool b => VBool b
  | VNum n => if isFinite n then VNum n else VNull
  | VStr s => VStr s
  | VArr items => VArr (map jsonOf items)
  | VObj props =>
      VObj ((fix go (ps : list (string * value)) : list (string * value) :=
               match ps with
               | [] => []
               | (k, VUndef) :: rest => go rest
               | (k, x) :: rest => (k, jsonOf x) :: go rest
               end) props)
  end.

(** The properties [jsonOf] keeps of an object. *)
Fixpoint jsonProps (ps : list (string * value)) : list (string * value) :=
  match ps with
  | [] => []
  | (k, VUndef) :: rest => jsonProps rest
  | (k, x) :: rest => (k, jsonOf x) :: jsonProps rest
  end.

(** A text held in storage, seen through [JSON.parse]: either the parse
    throws a SyntaxError, or it returns a value. *)
Inductive text : Type :=
| NotJSON (raw : string)
| JSONText (parsed : value).

(** [JSON.stringify v], then the coercion to a string that
    [Storage.setItem] applies ([undefined] is stored as "undefined"). *)
Definition stringify (v : value) : text :=
  match v with
  | VUndef => NotJSON "undefined"
  | _ => JSONText (jsonOf v)
  end.

Inductive outcome (A : Type) : Type :=
| Returns (a : A)
| Throws.
Arguments Returns {A} a.
Arguments Throws {A}.

Definition bind {A B} (m : outcome A) (k : A -> outcome B) : outcome B :=
  match m with Returns a => k a | Throws => Throws end.

(** [try { body } catch { handler }] *)
Definition try_catch {A} (body : outcome A) (handler : A) : A :=
  match body with Returns a => a | Throws => handler end.

Definition parse (t : text) : outcome value :=
  match t with
  | NotJSON _ => Throws
  | JSONText v => Returns v
  end.

(** [!raw] for a stored text: only the empty text is falsy. *)
Definition text_is_empty (t : text) : bool :=
  match t with
  | NotJSON raw => raw =? ""
  | JSONText _ => false
  end.

(** *** Date

    A [Date] is its time value, the milliseconds since the epoch, in UTC.
    The local time zone is what the host says of it: the offset from UTC
    in force at a time value, and the offset it picks for a local time
    (ECMAScript's LocalTime and UTC).  Both may change from one instant
    to another, as they do where clocks go forward and back in the year.
    Time values stay within the range of [Date] and the years that
    [toISOString] writes without failing. *)

Definition msPerDay : Z := 86400000.

Record TimeZone : Type := mkTimeZone {
  (** milliseconds east of UTC at the time value [t] *)
  offsetAt : Z -> Z;
  (** milliseconds east of UTC taken for the local time [t] *)
  offsetOfLocal : Z -> Z
}.

(** A zone that stays [minutes] minutes east of UTC. *)
Definition fixedZone (minutes : Z) : TimeZone :=
  mkTimeZone (fun _ => (minutes * 60000)%Z) (fun _ => (minutes * 60000)%Z).

Definition LocalTime (zone : TimeZone) (t : Z) : Z := (t + offsetAt zone t)%Z.

Definition UTC (zone : TimeZone) (t : Z) : Z := (t - offsetOfLocal zone t)%Z.

Definition Day (t : Z) : Z := (t / msPerDay)%Z.

Definition TimeWithinDay (t : Z) : Z := (t mod msPerDay)%Z.

(** Year, month (1 to 12) and day of month of the day [z] days after
    1970-01-01, in the proleptic Gregorian calendar. *)
Definition civil_from_days (z : Z) : Z * Z * Z :=
  let z := (z + 719468)%Z in
  let era := (z / 146097)%Z in
  let doe := (z - era * 146097)%Z in
  let yoe := ((doe - doe / 1460 + doe / 36524 - doe / 146096) / 365)%Z in
  let y := (yoe + era * 400)%Z in
  let doy := (doe - (365 * yoe + yoe / 4 - yoe / 100))%Z in
  let mp := ((5 * doy + 2) / 153)%Z in
  let d := (doy - (153 * mp + 2) / 5 + 1)%Z in
  let m := (if mp <? 10 then mp + 3 else mp - 9)%Z in
  ((if m <=? 2 then y + 1 else y)%Z, m, d).

(** The number of days from 1970-01-01 to the day [d] of the month [m]
    (1 to 12) of the year [y]. *)
Definition days_from_civil (y m d : Z) : Z :=
  let y := (if m <=? 2 then y - 1 else y)%Z in
  let era := (y / 400)%Z in
  let yoe := (y - era * 400)%Z in
  let doy := ((153 * (if 2 <? m then m - 3 else m + 9) + 2) / 5 + d - 1)%Z in
  let doe := (yoe * 365 + yoe / 4 - yoe / 100 + doy)%Z in
  (era * 146097 + doe - 719468)%Z.

Definition YearFromTime (t : Z) : Z :=
  let '(y, _, _) := civil_from_days (Day t) in y.

(** The month of a time value, 0 to 11. *)
Definition MonthFromTime (t : Z) : Z :=
  let '(_, m, _) := civil_from_days (Day t) in (m - 1)%Z.

Definition DateFromTime (t : Z) : Z :=
  let '(_, _, d) := civil_from_days (Day t) in d.

(** ECMAScript's MakeDay: [month] counts from 0 and carries into the
    year, [date] counts from 1 and carries into the months. *)
Definition MakeDay (year month date : Z) : Z :=
  let ym := (year + month / 12)%Z in
  let mn := (month mod 12)%Z in
  (days_from_civil ym (mn + 1) 1 + date - 1)%Z.

Definition MakeDate (day time : Z) : Z := (day * msPerDay + time)%Z.

(** [date.getFullYear()], [date.getMonth()], [date.getDate()]: the fields
    of the local time. *)
Definition getFullYear (zone : TimeZone) (t : Z) : Z :=
  YearFromTime (LocalTime zone t).

Definition getMonth (zone : TimeZone) (t : Z) : Z :=
  MonthFromTime (LocalTime zone t).

Definition getDate (zone : TimeZone) (t : Z) : Z :=
  DateFromTime (LocalTime zone t).

(** [new Date(year, month, date)]: midnight, local time, of that day; a
    year from 0 to 99 stands for 1900 + year. *)
Definition newDate (zone : TimeZone) (year month date : Z) : Z :=
  let yr := (if (0 <=? year) && (year <=? 99) then 1900 + year else year)%Z in
  UTC zone (MakeDate (MakeDay yr month date) 0).

(** [d.setDate(date)]: the day of the month is replaced in the local
    time, the local time of day is kept, and the result is taken back to
    UTC. *)
Definition setDate (zone : TimeZone) (t date : Z) : Z :=
  let local := LocalTime zone t in
  UTC zone (MakeDate (MakeDay (YearFromTime local) (MonthFromTime local) date)
                     (TimeWithinDay local)).

(** The last [width] decimal digits of [n]. *)
Fixpoint digits (width : nat) (n : Z) : string :=
  match width with
  | O => ""
  | S w => digits w (n / 10) ++ String (ascii_of_nat (48 + Z.to_nat (n mod 10))) ""
  end.

(** The date part of [toISOString], for the day [day] days after
    1970-01-01. *)
Definition isoDate (day : Z) : string :=
  let '(y, m, d) := civil_from_days day in
  (if (0 <=? y)%Z && (y <=? 9999)%Z then digits 4 y
   else (if (y <? 0)%Z then "-" else "+") ++ digits 6 (Z.abs y))
  ++ "-" ++ digits 2 m ++ "-" ++ digits 2 d.

(** The time part of [toISOString], [ms] milliseconds into the day. *)
Definition isoTime (ms : Z) : string :=
  "T" ++ digits 2 (ms / 3600000) ++ ":" ++ digits 2 (ms / 60000 mod 60)
  ++ ":" ++ digits 2 (ms / 1000 mod 60) ++ "." ++ digits 3 (ms mod 1000) ++ "Z".

(** [date.toISOString()] *)
Definition toISOString (t : Z) : string :=
  isoDate (t / msPerDay) ++ isoTime (t mod msPerDay).

End JS.

(* ================================================================== *)
(** ** src/lib/types.ts *)

Module Types.
Import JS.

Inductive TaskStatus : Type := todo | in_progress | done | archived.

Inductive TaskPriority : Type := low | medium | high.

Record Project : Type := mkProject {
  project_id : string;
  project_name : string;
  project_color : string;
  project_createdAt : string
}.

Record Task : Type := mkTask {
  id : string;
  title : string;
  description : option string;
  status : TaskStatus;
  priority : TaskPriority;
  projectId : nullable string;
  dueDate : nullable string;
  createdAt : string;
  updatedAt : string;
  completedAt : nullable string;
  isPinned : option bool;
  tags : option (list string)
}.

Record CompletionEntry : Type := mkEntry {
  date : string;
  count : nat
}.

Record AppSettings : Type := mkSettings {
  defaultProjectId : nullable string;
  confirmBeforeDelete : bool;
  enableSounds : bool;
  showOnboarding : bool
}.

Record PersistedState : Type := mkPersisted {
  version : number;
  tasks : list Task;
  projects : list Project;
  settings : AppSettings;
  completionHistory : list CompletionEntry
}.

Definition status_eqb (a b : TaskStatus) : bool :=
  match a, b with
  | todo, todo | in_progress, in_progress | done, done | archived, archived => true
  | _, _ => false
  end.

End Types.

(* ================================================================== *)
(** ** src/lib/analytics.ts *)

Module Analytics.
Import JS Types.

Record AnalyticsSummary : Type := mkSummary {
  totalTasks : nat;
  completedTasks : nat;
  activeTasks : nat;
  completionRate : number;
  streakDays : nat;
  tasksCompletedToday : nat
}.

(** [Map<string, number>]: the entries in insertion order, one per key. *)
Definition DateMap : Type := list (string * nat).

Fixpoint map_get (k : string) (m : DateMap) : option nat :=
  match m with
  | [] => None
  | (k', v) :: rest => if k =? k' then Some v else map_get k rest
  end.

Fixpoint map_set (k : string) (v : nat) (m : DateMap) : DateMap :=
  match m with
  | [] => [(k, v)]
  | (k', v') :: rest =>
      if k =? k' then (k', v) :: rest else (k', v') :: map_set k v rest
  end.

Definition startOfDay (zone : TimeZone) (date : Z) : Z :=
  newDate zone (getFullYear zone date) (getMonth zone date) (getDate zone date).

Definition toDateKey (date : Z) : string := slice0 10 (toISOString date).

(** The comparator handed to [sort]: [([a], [b]) => (a < b ? -1 : 1)]. *)
Definition compareEntries (a b : string * nat) : Z :=
  if String.ltb (fst a) (fst b) then (-1)%Z else 1%Z.

(** [Array.prototype.sort] with a comparator, as a stable insertion sort. *)
Fixpoint sort_insert {A} (cmp : A -> A -> Z) (x : A) (l : list A) : list A :=
  match l with
  | [] => [x]
  | y :: rest =>
      if (cmp x y <=? 0)%Z then x :: y :: rest
      else y :: sort_insert cmp x rest
  end.

Definition sort {A} (cmp : A -> A -> Z) (l : list A) : list A :=
  fold_right (sort_insert cmp) [] l.

(** One turn of the [for (const task of tasks)] loop. *)
Definition addTask (byDate : DateMap) (task : Task) : DateMap :=
  if negb (truthy (completedAt task)) then byDate
  else
    match completedAt task with
    | Val c =>
        let dateKey := slice0 10 c in
        map_set dateKey (match map_get dateKey byDate with
                         | Some n => n
                         | None => 0
                         end + 1) byDate
    | _ => byDate
    end.

Definition computeCompletionHistory (tasks : list Task) : list CompletionEntry :=
  let byDate := fold_left addTask tasks [] in
  map (fun e => mkEntry (fst e) (snd e)) (sort compareEntries byDate).

(** [t.completedAt && t.completedAt.slice(0, 10) === key] *)
Definition completedOn (key : string) (t : Task) : bool :=
  match completedAt t with
  | Val c => truthy_string c && (slice0 10 c =? key)
  | _ => false
  end.

(** The body of the streak loop at [offset]. *)
Definition hasCompletion (tasks : list Task) (history : list CompletionEntry)
           (key : string) : bool :=
  existsb (fun d => d =? key) (map date history)
  || existsb (completedOn key) tasks.

(** [for (let offset = 0; offset < 365; offset++) { ... }]:
    [remaining] turns are left, the next one is for [offset]. *)
Fixpoint streakLoop (dayKey : nat -> string) (tasks : list Task)
         (history : list CompletionEntry)
         (remaining offset streakDays : nat) : nat :=
  match remaining with
  | O => streakDays
  | S remaining' =>
      if hasCompletion tasks history (dayKey offset)
      then streakLoop dayKey tasks history remaining' (S offset) (S streakDays)
      else streakDays
  end.

(** The key of the loop at [offset]:
    [d = new Date(today); d.setDate(today.getDate() - offset); toDateKey(d)]. *)
Definition dayKeyAt (zone : TimeZone) (today : Z) (offset : nat) : string :=
  let d := today in
  let d := setDate zone d (getDate zone today - Z.of_nat offset) in
  toDateKey d.

(** [zone] is the local time zone and [current] the time value of
    [new Date()] when the function runs. *)
Definition computeAnalytics (zone : TimeZone) (current : Z)
           (tasks : list Task) (history : list CompletionEntry)
  : AnalyticsSummary :=
  let totalTasks := List.length tasks in
  let completedTasks :=
    List.length (filter (fun t => status_eqb (status t) done) tasks) in
  let activeTasks :=
    List.length (filter (fun t => status_eqb (status t) todo
                             || status_eqb (status t) in_progress) tasks) in
  let completionRate :=
    if (totalTasks =? 0)%nat then Fin 0%Q
    else div_length completedTasks totalTasks in
  let today := startOfDay zone current in
  let todayKey := toDateKey today in
  let tasksCompletedToday :=
    match find (fun entry => date entry =? todayKey) history with
    | Some entry => count entry
    | None => List.length (filter (completedOn todayKey) tasks)
    end in
  let streakDays := streakLoop (dayKeyAt zone today) tasks history 365 0 0 in
  mkSummary totalTasks completedTasks activeTasks completionRate
            streakDays tasksCompletedToday.

End Analytics.

(* ================================================================== *)
(** ** The runtime objects behind the typed records

    [JSON.stringify] sees objects, not types.  A typed record stands for
    the object holding its defined properties; an optional property whose
    value is [undefined] is one the object does not have. *)

Module Repr.
Import JS Types.

Definition prop (k : string) (v : value) : list (string * value) :=
  match v with
  | VUndef => []
  | _ => [(k, v)]
  end.

Definition of_nullable {A} (f : A -> value) (x : nullable A) : value :=
  match x with
  | Undefined => VUndef
  | Null => VNull
  | Val a => f a
  end.

Definition of_option {A} (f : A -> value) (x : option A) : value :=
  match x with
  | None => VUndef
  | Some a => f a
  end.

Definition status_name (s : TaskStatus) : string :=
  match s with
  | todo => "todo"
  | in_progress => "in-progress"
  | done => "done"
  | archived => "archived"
  end.

Definition priority_name (p : TaskPriority) : string :=
  match p with
  | low => "low"
  | medium => "medium"
  | high => "high"
  end.

Definition Project_value (p : Project) : value :=
  VObj [("id", VStr (project_id p));
        ("name", VStr (project_name p));
        ("color", VStr (project_color p));
        ("createdAt", VStr (project_createdAt p))].

Definition Task_value (t : Task) : value :=
  VObj ([("id", VStr (id t));
         ("title", VStr (title t))]
        ++ prop "description" (of_option VStr (description t))
        ++ [("status", VStr (status_name (status t)));
            ("priority", VStr (priority_name (priority t)))]
        ++ prop "projectId" (of_nullable VStr (projectId t))
        ++ prop "dueDate" (of_nullable VStr (dueDate t))
        ++ [("createdAt", VStr (createdAt t));
            ("updatedAt", VStr (updatedAt t))]
        ++ prop "completedAt" (of_nullable VStr (completedAt t))
        ++ prop "isPinned" (of_option VBool (isPinned t))
        ++ prop "tags" (of_option (fun l => VArr (map VStr l)) (tags t))).

Definition CompletionEntry_value (e : CompletionEntry) : value :=
  VObj [("date", VStr (date e)); ("count", VNum (of_nat (count e)))].

Definition AppSettings_value (s : AppSettings) : value :=
  VObj ([("confirmBeforeDelete", VBool (confirmBeforeDelete s));
         ("enableSounds", VBool (enableSounds s));
         ("showOnboarding", VBool (showOnboarding s))]
        ++ prop "defaultProjectId" (of_nullable VStr (defaultProjectId s))).

Definition PersistedState_props (s : PersistedState) : list (string * value) :=
  [("version", VNum (version s));
   ("tasks", VArr (map Task_value (tasks s)));
   ("projects", VArr (map Project_value (projects s)));
   ("settings", AppSettings_value (settings s));
   ("completionHistory", VArr (map CompletionEntry_value (completionHistory s)))].

Definition PersistedState_value (s : PersistedState) : value :=
  VObj (PersistedState_props s).

End Repr.

(* ================================================================== *)
(** ** src/lib/storage.ts *)

Module Storage.
Import JS Types Repr.

Definition CURRENT_VERSION : number := Fin 1%Q.

(** [window.localStorage], reduced to the one key the gateway uses
    ([STORAGE_KEY]).  Reading throws when [readable] is false (storage
    disabled).  Writing a text throws when the storage does not accept
    it: [accepts] says which texts fit (none when storage is disabled,
    those within the quota otherwise), and a write that throws leaves the
    stored text as it was. *)
Record LocalStorage : Type := mkLocalStorage {
  readable : bool;
  accepts : text -> bool;
  item : option text
}.

Definition getItem (ls : LocalStorage) : outcome (option text) :=
  if readable ls then Returns (item ls) else Throws.

Definition setItem (ls : LocalStorage) (t : text) : outcome LocalStorage :=
  if accepts ls t then Returns (mkLocalStorage (readable ls) (accepts ls) (Some t))
  else Throws.

(** What [loadState] returns: the arrays are taken from the parsed blob
    as they are (their elements are not inspected), the settings are
    rebuilt field by field. *)
Record Loaded : Type := mkLoaded {
  loaded_version : number;
  loaded_tasks : list value;
  loaded_projects : list value;
  loaded_settings : AppSettings;
  loaded_completionHistory : list value
}.

(** A typed state seen as a [Loaded] one. *)
Definition raw (s : PersistedState) : Loaded :=
  mkLoaded (version s)
           (map Task_value (tasks s))
           (map Project_value (projects s))
           (settings s)
           (map CompletionEntry_value (completionHistory s)).

(** [typeof value === "object" && value !== null] *)
Definition isObject (v : value) : bool :=
  typeof_object v && negb (match v with VNull => true | _ => false end).

(** [Array.isArray(value) ? value : []] *)
Definition coerceArray (v : value) : list value :=
  match v with
  | VArr items => items
  | _ => []
  end.

Definition coerceSettings (v : value) : AppSettings :=
  if negb (isObject v) then
    {| confirmBeforeDelete := true;
       enableSounds := false;
       showOnboarding := true;
       defaultProjectId := Null |}
  else
    {| confirmBeforeDelete :=
         match get v "confirmBeforeDelete" with VBool b => b | _ => true end;
       enableSounds :=
         match get v "enableSounds" with VBool b => b | _ => false end;
       showOnboarding :=
         match get v "showOnboarding" with VBool b => b | _ => true end;
       defaultProjectId :=
         match get v "defaultProjectId" with
         | VStr s => Val s
         | VNull => Null
         | _ => Null
         end |}.

Definition getInitialState (now : string) : PersistedState :=
  let defaultProject :=
    {| project_id := "inbox";
       project_name := "Inbox";
       project_color := "sky";
       project_createdAt := now |} in
  let sampleTask :=
    {| id := "welcome-task";
       title := "Welcome to FocusFlow";
       description :=
         Some "Edit or complete this task to get a feel for the workflow.";
       status := todo;
       priority := medium;
       projectId := Val (project_id defaultProject);
       dueDate := Undefined;
       createdAt := now;
       updatedAt := now;
       completedAt := Null;
       isPinned := Some true;
       tags := Some ["getting-started"] |} in
  let settings :=
    {| confirmBeforeDelete := true;
       enableSounds := false;
       showOnboarding := true;
       defaultProjectId := Val (project_id defaultProject) |} in
  let completionHistory := [] in
  {| version := CURRENT_VERSION;
     tasks := [sampleTask];
     projects := [defaultProject];
     settings := settings;
     completionHistory := completionHistory |}.

(** The body of the [try] block of [loadState]. *)
Definition loadState_try (now : string) (ls : LocalStorage) : outcome Loaded :=
  bind (getItem ls) (fun raw_item =>
    match raw_item with
    | None => Returns (raw (getInitialState now))
    | Some t =>
        if text_is_empty t then Returns (raw (getInitialState now))
        else
          bind (parse t) (fun parsed =>
            if negb (isObject parsed) then Returns (raw (getInitialState now))
            else
              let version :=
                match get parsed "version" with
                | VNum n => if isFinite n then n else CURRENT_VERSION
                | _ => CURRENT_VERSION
                end in
              let tasks := coerceArray (get parsed "tasks") in
              let projects := coerceArray (get parsed "projects") in
              let completionHistory :=
                coerceArray (get parsed "completionHistory") in
              let settings := coerceSettings (get parsed "settings") in
              Returns (mkLoaded version tasks projects settings completionHistory))
    end).

(** [window] is [None] where [typeof window === "undefined"] (on the
    server). *)
Definition loadState (now : string) (window : option LocalStorage) : Loaded :=
  match window with
  | None => raw (getInitialState now)
  | Some ls => try_catch (loadState_try now ls) (raw (getInitialState now))
  end.

(** [saveState(next)]: the storage as the call leaves it. *)
Definition saveState (window : option LocalStorage) (next : value)
  : option LocalStorage :=
  match window with
  | None => None
  | Some ls =>
      Some (try_catch
              (bind (Returns (stringify next)) (fun serialised =>
                 setItem ls serialised))
              ls)
  end.

End Storage.

(* ================================================================== *)
(** ** src/hooks/useDashboardState.ts *)

Module Engine.
Import JS Types Repr.

(** [PersistedState & { lastDeletedTask?: Task | null }] *)
Record State : Type := mkState {
  persisted :> PersistedState;
  lastDeletedTask : nullable Task
}.

Record CreateTaskInput : Type := mkInput {
  input_title : string;
  input_description : option string;
  input_projectId : nullable string;
  input_priority : option TaskPriority;
  input_dueDate : nullable string
}.

(** [Partial<Task>]: [None] for a property the patch does not have; a
    property the patch has holds a value of the type the field declares. *)
Record TaskPatch : Type := mkPatch {
  patch_id : option string;
  patch_title : option string;
  patch_description : option (option string);
  patch_status : option TaskStatus;
  patch_priority : option TaskPriority;
  patch_projectId : option (nullable string);
  patch_dueDate : option (nullable string);
  patch_createdAt : option string;
  patch_updatedAt : option string;
  patch_completedAt : option (nullable string);
  patch_isPinned : option (option bool);
  patch_tags : option (option (list string))
}.

(** [Partial<AppSettings>] *)
Record SettingsPatch : Type := mkSettingsPatch {
  patch_defaultProjectId : option (nullable string);
  patch_confirmBeforeDelete : option bool;
  patch_enableSounds : option bool;
  patch_showOnboarding : option bool
}.

Inductive Action : Type :=
| hydrate (payload : PersistedState)
| create_task (payload : CreateTaskInput)
| update_task (id : string) (patch : TaskPatch)
| delete_task (id : string)
| bulk_update_status (ids : list string) (status : TaskStatus)
| restore_last_deleted
| update_settings (payload : SettingsPatch)
| create_project (name color : string).

(** A spread property: the patch's value where the patch has the
    property, the earlier value otherwise. *)
Definition spread {A} (earlier : A) (later : option A) : A :=
  match later with
  | Some a => a
  | None => earlier
  end.

(** [{ ...task, ...patch, updatedAt: now }] *)
Definition patchTask (now : string) (task : Task) (patch : TaskPatch) : Task :=
  {| id := spread (id task) (patch_id patch);
     title := spread (title task) (patch_title patch);
     description := spread (description task) (patch_description patch);
     status := spread (status task) (patch_status patch);
     priority := spread (priority task) (patch_priority patch);
     projectId := spread (projectId task) (patch_projectId patch);
     dueDate := spread (dueDate task) (patch_dueDate patch);
     createdAt := spread (createdAt task) (patch_createdAt patch);
     updatedAt := now;
     completedAt := spread (completedAt task) (patch_completedAt patch);
     isPinned := spread (isPinned task) (patch_isPinned patch);
     tags := spread (tags task) (patch_tags patch) |}.

(** [new Set(ids).has(id)] *)
Definition has (ids : list string) (x : string) : bool :=
  existsb (fun y => y =? x) ids.

(** [{ ...state, tasks, completionHistory }] *)
Definition with_tasks (state : State) (tasks : list Task) : PersistedState :=
  {| version := version state;
     tasks := tasks;
     projects := projects state;
     settings := settings state;
     completionHistory := Analytics.computeCompletionHistory tasks |}.

(** The reducer.  [now] is what [new Date().toISOString()] returns and
    [uuid] what [uuid()] returns during the transition.  [Action] has the
    eight cases of the source's union, so the [default] branch has no
    counterpart. *)
Definition reducer (now uuid : string) (state : State) (action : Action) : State :=
  match action with
  | hydrate payload =>
      {| persisted := payload; lastDeletedTask := Null |}
  | create_task payload =>
      let task :=
        {| id := uuid;
           title := trim (input_title payload);
           description :=
             Some (match input_description payload with
                   | Some d => if truthy_string (trim d) then trim d else ""
                   | None => ""
                   end);
           status := todo;
           priority := match input_priority payload with
                       | Some p => p
                       | None => medium
                       end;
           projectId :=
             nullish_chain (input_projectId payload)
               (nullish_chain (defaultProjectId (settings state)) Null);
           dueDate := nullish_chain (input_dueDate payload) Null;
           createdAt := now;
           updatedAt := now;
           completedAt := Null;
           isPinned := Some false;
           tags := Some [] |} in
      let tasks := task :: tasks state in
      {| persisted := with_tasks state tasks;
         lastDeletedTask := lastDeletedTask state |}
  | update_task id_ patch =>
      let tasks :=
        map (fun task => if id task =? id_ then patchTask now task patch
                         else task)
            (tasks state) in
      {| persisted := with_tasks state tasks;
         lastDeletedTask := lastDeletedTask state |}
  | delete_task id_ =>
      let task :=
        match find (fun t => id t =? id_) (tasks state) with
        | Some t => Val t
        | None => Null
        end in
      let tasks := filter (fun t => negb (id t =? id_)) (tasks state) in
      {| persisted := with_tasks state tasks;
         lastDeletedTask := task |}
  | bulk_update_status ids_ status_ =>
      let tasks :=
        map (fun task =>
               if negb (has ids_ (id task)) then task
               else
                 let completedAt' :=
                   if status_eqb status_ done
                   then Val (nullish_or (completedAt task) now)
                   else completedAt task in
                 {| id := id task;
                    title := title task;
                    description := description task;
                    status := status_;
                    priority := priority task;
                    projectId := projectId task;
                    dueDate := dueDate task;
                    createdAt := createdAt task;
                    updatedAt := now;
                    completedAt := completedAt';
                    isPinned := isPinned task;
                    tags := tags task |})
            (tasks state) in
      {| persisted := with_tasks state tasks;
         lastDeletedTask := lastDeletedTask state |}
  | restore_last_deleted =>
      match lastDeletedTask state with
      | Val deleted =>
          let tasks := deleted :: tasks state in
          {| persisted := with_tasks state tasks;
             lastDeletedTask := Null |}
      | _ => state
      end
  | update_settings payload =>
      let settings' :=
        {| defaultProjectId :=
             spread (defaultProjectId (settings state))
                    (patch_defaultProjectId payload);
           confirmBeforeDelete :=
             spread (confirmBeforeDelete (settings state))
                    (patch_confirmBeforeDelete payload);
           enableSounds :=
             spread (enableSounds (settings state))
                    (patch_enableSounds payload);
           showOnboarding :=
             spread (showOnboarding (settings state))
                    (patch_showOnboarding payload) |} in
      {| persisted :=
           {| version := version state;
              tasks := tasks state;
              projects := projects state;
              settings := settings';
              completionHistory := completionHistory state |};
         lastDeletedTask := lastDeletedTask state |}
  | create_project name color =>
      let project :=
        {| project_id := uuid;
           project_name := trim name;
           project_color := color;
           project_createdAt := now |} in
      {| persisted :=
           {| version := version state;
              tasks := tasks state;
              projects := projects state ++ [project];
              settings := settings state;
              completionHistory := completionHistory state |};
         lastDeletedTask := lastDeletedTask state |}
  end.

(** The object [saveState] receives from the persist effect: the whole
    reducer state. *)
Definition State_value (state : State) : value :=
  VObj (PersistedState_props state
        ++ prop "lastDeletedTask" (of_nullable Task_value (lastDeletedTask state))).

(** [useEffect(() => { saveState(state); }, [state])] *)
Definition persist (window : option Storage.LocalStorage) (state : State)
  : option Storage.LocalStorage :=
  Storage.saveState window (State_value state).

End Engine.

(* ================================================================== *)
(** ** The handlers of AppShell that call the engine *)

Module AppShell.
Import JS Types Engine.

(** [handleCreateTask(title)]; the toast it pushes is not part of the
    engine state. *)
Definition handleCreateTask (now uuid : string) (state : State) (title : string)
  : State :=
  let trimmed := trim title in
  if negb (truthy_string trimmed) then state
  else reducer now uuid state
         (create_task {| input_title := trimmed;
                         input_description := None;
                         input_projectId := Undefined;
                         input_priority := None;
                         input_dueDate := Undefined |}).

(** The patch [handleComplete(task)] builds; [stamp] is the handler's own
    [new Date().toISOString()]. *)
Definition completePatch (stamp : string) (task : Task) : TaskPatch :=
  let status' := if status_eqb (status task) done then todo else done in
  {| patch_id := None;
     patch_title := None;
     patch_description := None;
     patch_status := Some status';
     patch_priority := None;
     patch_projectId := None;
     patch_dueDate := None;
     patch_createdAt := None;
     patch_updatedAt := None;
     patch_completedAt :=
       Some (if status_eqb status' done then Val stamp else Null);
     patch_isPinned := None;
     patch_tags := None |}.

(** [handleComplete(task)] *)
Definition handleComplete (stamp now uuid : string) (state : State) (task : Task)
  : State :=
  reducer now uuid state (update_task (id task) (completePatch stamp task)).

(** *** Selection of tasks

    [selectedTaskIds] is a list of ids; [prev.includes(id)] compares with
    [===]. *)
Definition includes (l : list string) (x : string) : bool :=
  existsb (fun y => y =? x) l.

(** The updater [toggleSelection(id)] hands to [setSelectedTaskIds]. *)
Definition toggleSelection (prev : list string) (id_ : string) : list string :=
  if includes prev id_ then filter (fun x => negb (x =? id_)) prev
  else prev ++ [id_].

End AppShell.

(* ================================================================== *)
(** ** src/components/ui/toast.tsx: the toast store *)

Module Toasts.

Inductive Variant : Type := variant_default | variant_destructive | variant_success.

Record ToastMessage : Type := mkToast {
  toast_id : nat;
  toast_title : string;
  toast_description : option string;
  toast_variant : option Variant
}.

(** [Omit<ToastMessage, "id">] *)
Record ToastInput : Type := mkToastInput {
  new_title : string;
  new_description : option string;
  new_variant : option Variant
}.

(** The module-level counter [toastId] and the [toasts] of the provider. *)
Record Store : Type := mkStore {
  toastId : nat;
  toasts : list ToastMessage
}.

Definition initial : Store := {| toastId := 0; toasts := [] |}.

(** [push(toast)]: [const id = ++toastId; setToasts(prev => [...prev,
    { ...toast, id }])]; the id is also the one the timer will remove. *)
Definition push (store : Store) (toast : ToastInput) : Store * nat :=
  let id := S (toastId store) in
  ({| toastId := id;
      toasts := toasts store
                ++ [{| toast_id := id;
                       toast_title := new_title toast;
                       toast_description := new_description toast;
                       toast_variant := new_variant toast |}] |},
   id).

(** The timer of a push firing:
    [setToasts(prev => prev.filter(t => t.id !== id))]. *)
Definition expire (store : Store) (id : nat) : Store :=
  {| toastId := toastId store;
     toasts := filter (fun t => negb (toast_id t =? id)%nat) (toasts store) |}.

(** What happens to the store: a push, or the timer of an earlier push
    firing. *)
Inductive Event : Type :=
| Push (toast : ToastInput)
| Expire (id : nat).

Definition step (store : Store) (e : Event) : Store :=
  match e with
  | Push toast => fst (push store toast)
  | Expire id => expire store id
  end.

Definition run (store : Store) (events : list Event) : Store :=
  fold_left step events store.

End Toasts.

(* ================================================================== *)
(** ** The single-file Todo App (app.js with addTodo, editTodo, ...)

    The module-level variables [todos] and [currentFilter], the text the
    alert area shows and the storage make up the state; rendering is left
    out. *)

Module TodoApp.
Import JS Storage.

Record Todo : Type := mkTodo {
  todo_id : string;
  todo_text : string;
  isCompleted : bool;
  todo_createdAt : string
}.

Definition Todo_value (t : Todo) : value :=
  VObj [("id", VStr (todo_id t));
        ("text", VStr (todo_text t));
        ("isCompleted", VBool (isCompleted t));
        ("createdAt", VStr (todo_createdAt t))].

Inductive AlertType : Type := alert_error | alert_info.

Record App : Type := mkApp {
  todos : list Todo;
  currentFilter : string;
  alert : option (string * AlertType);
  storage : LocalStorage
}.

Definition normalizeText (text : string) : string := trim text.

(** [loadTodosFromStorage()]: the parsed array as it is. *)
Definition loadTodosFromStorage (ls : LocalStorage) : list value :=
  try_catch
    (bind (getItem ls) (fun raw_item =>
       match raw_item with
       | None => Returns []
       | Some t =>
           if text_is_empty t then Returns []
           else bind (parse t) (fun parsed =>
                  match parsed with
                  | VArr items => Returns items
                  | _ => Returns []
                  end)
       end))
    [].

Definition showAlert (app : App) (message : string) (type : AlertType) : App :=
  {| todos := todos app;
     currentFilter := currentFilter app;
     alert := Some (message, type);
     storage := storage app |}.

Definition clearAlert (app : App) : App :=
  {| todos := todos app;
     currentFilter := currentFilter app;
     alert := None;
     storage := storage app |}.

Definition saveTodosToStorage (app : App) : App :=
  match setItem (storage app) (stringify (VArr (map Todo_value (todos app)))) with
  | Returns ls =>
      {| todos := todos app;
         currentFilter := currentFilter app;
         alert := alert app;
         storage := ls |}
  | Throws =>
      showAlert app
        "We could not save your changes. Please check your browser storage settings."
        alert_error
  end.

Definition with_todos (app : App) (l : list Todo) : App :=
  {| todos := l;
     currentFilter := currentFilter app;
     alert := alert app;
     storage := storage app |}.

(** [addTodo(rawText)]; [now] and [newId] are what [new Date().toISOString()]
    and [createId()] return. *)
Definition addTodo (now newId : string) (app : App) (rawText : string) : App :=
  let text := normalizeText rawText in
  if negb (truthy_string text) then
    showAlert app "Please enter a task before adding." alert_error
  else if (String.length text <? 3)%nat then
    showAlert app "Task description should be at least 3 characters." alert_error
  else if (120 <? String.length text)%nat then
    showAlert app
      "Task description is too long. Please keep it under 120 characters."
      alert_error
  else
    let newTodo :=
      {| todo_id := newId;
         todo_text := text;
         isCompleted := false;
         todo_createdAt := now |} in
    clearAlert (saveTodosToStorage (with_todos app (newTodo :: todos app))).

Definition toggleTodoCompletion (app : App) (id : string) : App :=
  saveTodosToStorage
    (with_todos app
       (map (fun todo =>
               if todo_id todo =? id
               then {| todo_id := todo_id todo;
                       todo_text := todo_text todo;
                       isCompleted := negb (isCompleted todo);
                       todo_createdAt := todo_createdAt todo |}
               else todo)
            (todos app))).

Definition editTodo (app : App) (id newTextRaw : string) : App :=
  let newText := normalizeText newTextRaw in
  if negb (truthy_string newText) then
    showAlert app "Task text cannot be empty after editing." alert_error
  else if (String.length newText <? 3)%nat then
    showAlert app "Task description should be at least 3 characters." alert_error
  else if (120 <? String.length newText)%nat then
    showAlert app
      "Task description is too long. Please keep it under 120 characters."
      alert_error
  else
    clearAlert
      (saveTodosToStorage
         (with_todos app
            (map (fun todo =>
                    if todo_id todo =? id
                    then {| todo_id := todo_id todo;
                            todo_text := newText;
                            isCompleted := isCompleted todo;
                            todo_createdAt := todo_createdAt todo |}
                    else todo)
                 (todos app)))).

Definition deleteTodo (app : App) (id : string) : App :=
  saveTodosToStorage
    (with_todos app (filter (fun todo => negb (todo_id todo =? id)) (todos app))).

Definition clearCompletedTodos (app : App) : App :=
  let hasCompleted := existsb isCompleted (todos app) in
  if negb hasCompleted then
    showAlert app "There are no completed tasks to clear." alert_info
  else
    clearAlert
      (saveTodosToStorage
         (with_todos app (filter (fun todo => negb (isCompleted todo)) (todos app)))).

Definition getVisibleTodos (app : App) : list Todo :=
  if currentFilter app =? "active" then
    filter (fun todo => negb (isCompleted todo)) (todos app)
  else if currentFilter app =? "completed" then
    filter isCompleted (todos app)
  else todos app.

End TodoApp.

(* ================================================================== *)
(** ** FocusList: storage.js and the handlers of its app.js

    [localStorage] holds two keys here: the todos, a JSON text, and the
    theme, a plain text. *)

Module FocusList.
Import JS.

(** [accepts] says which contents of the two keys fit the storage; a
    write that would leave other contents throws and changes nothing. *)
Record LocalStorage : Type := mkLocalStorage {
  readable : bool;
  accepts : option text -> option string -> bool;
  todos_item : option text;
  theme_item : option string
}.

Definition getTodosItem (ls : LocalStorage) : outcome (option text) :=
  if readable ls then Returns (todos_item ls) else Throws.

Definition setTodosItem (ls : LocalStorage) (t : text) : outcome LocalStorage :=
  if accepts ls (Some t) (theme_item ls)
  then Returns (mkLocalStorage (readable ls) (accepts ls) (Some t) (theme_item ls))
  else Throws.

Definition getThemeItem (ls : LocalStorage) : outcome (option string) :=
  if readable ls then Returns (theme_item ls) else Throws.

Definition setThemeItem (ls : LocalStorage) (theme : string) : outcome LocalStorage :=
  if accepts ls (todos_item ls) (Some theme)
  then Returns (mkLocalStorage (readable ls) (accepts ls) (todos_item ls) (Some theme))
  else Throws.

(** A todo as [loadTodos] hands it to the app: [createdAt] and [updatedAt]
    are whatever truthy value was stored. *)
Record Todo : Type := mkTodo {
  id : string;
  title : string;
  completed : bool;
  createdAt : value;
  updatedAt : value
}.

Definition Todo_value (t : Todo) : value :=
  VObj [("id", VStr (id t));
        ("title", VStr (title t));
        ("completed", VBool (completed t));
        ("createdAt", createdAt t);
        ("updatedAt", updatedAt t)].

Record LoadResult : Type := mkLoadResult {
  todos : list Todo;
  error : option string
}.

(** [Boolean(v)] *)
Definition truthy_value (v : value) : bool :=
  match v with
  | VUndef | VNull => false
  | VBool b => b
  | VNum NaN => false
  | VNum (Infinity _) => true
  | VNum (Fin q) => negb (Qeq_bool q 0)
  | VStr s => truthy_string s
  | VArr _ | VObj _ => true
  end.

(** [a || b] *)
Definition or_value (a b : value) : value := if truthy_value a then a else b.

(** [item.k]: a TypeError when [item] is null or undefined. *)
Definition member (item : value) (k : string) : outcome value :=
  match item with
  | VUndef | VNull => Throws
  | _ => Returns (get item k)
  end.

(** What the calls the normalization makes for the item at [index] return:
    [generateId()] and the two [new Date().toISOString()]. *)
Record Env : Type := mkEnv {
  generateId : nat -> string;
  nowCreated : nat -> string;
  nowUpdated : nat -> string
}.

(** The callback of [parsed.map(...)] at [index]. *)
Definition normalize (env : Env) (index : nat) (item : value) : outcome Todo :=
  bind (member item "id") (fun item_id =>
  bind (member item "title") (fun item_title =>
  bind (member item "completed") (fun item_completed =>
  bind (member item "createdAt") (fun item_createdAt =>
  bind (member item "updatedAt") (fun item_updatedAt =>
    Returns
      {| id := match item_id with VStr s => s | _ => generateId env index end;
         title := match item_title with VStr s => s | _ => "" end;
         completed := truthy_value item_completed;
         createdAt := or_value item_createdAt (VStr (nowCreated env index));
         updatedAt :=
           or_value (or_value item_updatedAt item_createdAt)
                    (VStr (nowUpdated env index)) |}))))).

Fixpoint normalizeAll (env : Env) (index : nat) (items : list value)
  : outcome (list Todo) :=
  match items with
  | [] => Returns []
  | item :: rest =>
      bind (normalize env index item) (fun todo =>
      bind (normalizeAll env (S index) rest) (fun todos =>
        Returns (todo :: todos)))
  end.

Definition loadTodos (env : Env) (ls : LocalStorage) : LoadResult :=
  try_catch
    (bind (getTodosItem ls) (fun raw_item =>
       match raw_item with
       | None => Returns {| todos := []; error := None |}
       | Some t =>
           if text_is_empty t then Returns {| todos := []; error := None |}
           else
             bind (parse t) (fun parsed =>
               match parsed with
               | VArr items =>
                   bind (normalizeAll env 0 items) (fun normalized =>
                     Returns {| todos := normalized; error := None |})
               | _ =>
                   Returns
                     {| todos := [];
                        error :=
                          Some "Stored data had an unexpected format and was reset." |}
               end)
       end))
    {| todos := [];
       error := Some "We had to reset your data because it looked corrupted." |}.

Definition saveTodos (ls : LocalStorage) (todos : list Todo) : LocalStorage :=
  try_catch
    (bind (Returns (stringify (VArr (map Todo_value todos)))) (fun toStore =>
       setTodosItem ls toStore))
    ls.

(** [clearCompletedTodos(todos)]: the todos it returns and the storage it
    leaves. *)
Definition clearCompletedTodos (ls : LocalStorage) (todos : list Todo)
  : list Todo * LocalStorage :=
  let remaining := filter (fun todo => negb (completed todo)) todos in
  (remaining, saveTodos ls remaining).

Definition loadThemePreference (ls : LocalStorage) : option string :=
  try_catch
    (bind (getThemeItem ls) (fun value =>
       match value with
       | Some v => if (v =? "light") || (v =? "dark") then Returns (Some v)
                   else Returns None
       | None => Returns None
       end))
    None.

Definition saveThemePreference (ls : LocalStorage) (theme : string) : LocalStorage :=
  try_catch
    (if (theme =? "light") || (theme =? "dark") then setThemeItem ls theme
     else Returns ls)
    ls.

(** [todos.findIndex(t => t.id === id)] *)
Fixpoint findIndex (id_ : string) (todos : list Todo) : option nat :=
  match todos with
  | [] => None
  | t :: rest =>
      if id t =? id_ then Some 0
      else match findIndex id_ rest with
           | Some i => Some (S i)
           | None => None
           end
  end.

(** [todos.splice(idx, 1, updated)] for an index within the list. *)
Fixpoint replaceAt (idx : nat) (updated : Todo) (todos : list Todo) : list Todo :=
  match todos, idx with
  | [], _ => []
  | _ :: rest, O => updated :: rest
  | t :: rest, S i => t :: replaceAt i updated rest
  end.

(** [handleToggleTodo(id)] on the todos of the app state and the storage;
    rendering is left out. *)
Definition handleToggleTodo (now : string) (todos : list Todo) (ls : LocalStorage)
           (id_ : string) : list Todo * LocalStorage :=
  match findIndex id_ todos with
  | None => (todos, ls)
  | Some idx =>
      match nth_error todos idx with
      | None => (todos, ls) (* not reached: [idx] is within the list *)
      | Some todo =>
          let updated :=
            {| id := id todo;
               title := title todo;
               completed := negb (completed todo);
               createdAt := createdAt todo;
               updatedAt := VStr now |} in
          let todos' := replaceAt idx updated todos in
          (todos', saveTodos ls todos')
      end
  end.

(** The confirmed delete of [handleDeleteTodo(todo)]. *)
Definition handleDeleteTodo (todos : list Todo) (ls : LocalStorage) (todo : Todo)
  : list Todo * LocalStorage :=
  let todos' := filter (fun t => negb (id t =? id todo)) todos in
  (todos', saveTodos ls todos').

End FocusList.

(* ================================================================== *)
(** ** Vocabulary of the properties *)

Module Vocabulary.
Import JS Types Analytics Storage Engine.

(** The calendar-day key of a completion stamp, for a task that has one. *)
Definition dayOf (stamp : nullable string) : option string :=
  match stamp with
  | Val c => if truthy_string c then Some (slice0 10 c) else None
  | _ => None
  end.

(** A day has a completion: it is among the dates of the history, or
    the completion stamp of some task falls on it. *)
Definition day_has_completion (tasks : list Task)
           (history : list CompletionEntry) (key : string) : Prop :=
  In key (map date history)
  \/ exists t, In t tasks /\ dayOf (completedAt t) = Some key.

(** [completedAt != null] iff [status == done], for one task. *)
Definition task_ok (t : Task) : bool :=
  Bool.eqb (not_null (completedAt t)) (status_eqb (status t) done).

Definition slot_ok (slot : nullable Task) : bool :=
  match slot with
  | Val t => task_ok t
  | _ => true
  end.

(** Every task the state holds, in the list or in the undo slot. *)
Definition state_ok (state : State) : bool :=
  forallb task_ok (tasks state) && slot_ok (lastDeletedTask state).

(** A patch that leaves status and completedAt alone, or sets both in
    agreement. *)
Definition patch_ok (patch : TaskPatch) : bool :=
  match patch_status patch, patch_completedAt patch with
  | None, None => true
  | Some s, Some c => Bool.eqb (not_null c) (status_eqb s done)
  | _, _ => false
  end.

Definition action_ok (action : Action) : bool :=
  match action with
  | hydrate payload => forallb task_ok (tasks payload)
  | update_task _ patch => patch_ok patch
  | bulk_update_status _ status_ => status_eqb status_ done
  | _ => true
  end.

(** A stored input the gateway cannot use: no blob under the key, a text
    that does not parse, or a parsed value that is not a plain object. *)
Inductive unusable : option text -> Prop :=
| unusable_missing : unusable None
| unusable_unparseable (raw : string) : unusable (Some (NotJSON raw))
| unusable_shape (v : value) :
    (forall props, v <> VObj props) -> unusable (Some (JSONText v)).

(** Version current, no task, no project, no history, every setting at
    its default. *)
Definition emptyState : Loaded :=
  {| loaded_version := CURRENT_VERSION;
     loaded_tasks := [];
     loaded_projects := [];
     loaded_settings :=
       {| confirmBeforeDelete := true;
          enableSounds := false;
          showOnboarding := true;
          defaultProjectId := Null |};
     loaded_completionHistory := [] |}.

(** A state that [JSON.stringify] and [loadState] hand back as it is:
    the version is a finite number and the settings have all four fields. *)
Definition well_formed (s : PersistedState) : bool :=
  isFinite (version s)
  && negb (match defaultProjectId (settings s) with
           | Undefined => true
           | _ => false
           end).

(** The day key of the calendar day [day] days after 1970-01-01. *)
Definition dateKeyOfDay (day : Z) : string := slice0 10 (isoDate day).

(** The sum of the counts a date map holds. *)
Definition total_count (m : DateMap) : nat := list_sum (map snd m).

(** The completion history of a state is the one computed from its tasks. *)
Definition in_sync (s : PersistedState) : Prop :=
  completionHistory s = computeCompletionHistory (tasks s).

(** The ids of the tasks a state holds: those of the list, then the one of
    the undo slot. *)
Definition held_ids (state : State) : list string :=
  map id (tasks state)
  ++ match lastDeletedTask state with
     | Val t => [id t]
     | _ => []
     end.

(** What an action needs for the ids to stay distinct: a created task gets
    an id no held task has, a patch leaves the id alone, a hydrated payload
    has distinct ids. *)
Definition keeps_ids (uuid : string) (state : State) (action : Action) : Prop :=
  match action with
  | hydrate payload => NoDup (map id (tasks payload))
  | create_task _ => ~ In uuid (held_ids state)
  | update_task _ patch => patch_id patch = None
  | _ => True
  end.

(** The ids of the live toasts are distinct and were all handed out by the
    counter. *)
Definition toasts_ok (store : Toasts.Store) : Prop :=
  NoDup (map Toasts.toast_id (Toasts.toasts store))
  /\ Forall (fun t => 1 <= Toasts.toast_id t <= Toasts.toastId store)
            (Toasts.toasts store).

(** A FocusList todo whose createdAt and updatedAt are non-empty strings,
    as the app stamps them. *)
Definition stamped (t : FocusList.Todo) : bool :=
  match FocusList.createdAt t, FocusList.updatedAt t with
  | VStr c, VStr u => truthy_string c && truthy_string u
  | _, _ => false
  end.

(** [null] or [undefined]. *)
Definition nullish (v : value) : bool :=
  match v with
  | VUndef | VNull => true
  | _ => false
  end.

End Vocabulary.

(* ================================================================== *)
(** ** Sample data *)

Module Samples.
Import JS Types Analytics Storage Engine.

Definition done_yesterday : Task :=
  {| id := "t1";
     title := "Write report";
     description := Some "";
     status := done;
     priority := medium;
     projectId := Null;
     dueDate := Null;
     createdAt := "2024-03-01T09:00:00.000Z";
     updatedAt := "2024-03-02T17:30:00.000Z";
     completedAt := Val "2024-03-02T17:30:00.000Z";
     isPinned := Some false;
     tags := Some [] |}.

Definition no_patch : TaskPatch :=
  {| patch_id := None;
     patch_title := None;
     patch_description := None;
     patch_status := None;
     patch_priority := None;
     patch_projectId := None;
     patch_dueDate := None;
     patch_createdAt := None;
     patch_updatedAt := None;
     patch_completedAt := None;
     patch_isPinned := None;
     patch_tags := None |}.

(** The patch [{ status: "todo" }]. *)
Definition reopen_patch : TaskPatch :=
  {| patch_id := None;
     patch_title := None;
     patch_description := None;
     patch_status := Some todo;
     patch_priority := None;
     patch_projectId := None;
     patch_dueDate := None;
     patch_createdAt := None;
     patch_updatedAt := None;
     patch_completedAt := None;
     patch_isPinned := None;
     patch_tags := None |}.

Definition default_settings : AppSettings :=
  {| confirmBeforeDelete := true;
     enableSounds := false;
     showOnboarding := true;
     defaultProjectId := Null |}.

(** One done task, history in step with it, nothing in the undo slot. *)
Definition one_done_state : State :=
  {| persisted :=
       {| version := CURRENT_VERSION;
          tasks := [done_yesterday];
          projects := [];
          settings := default_settings;
          completionHistory := [mkEntry "2024-03-02" 1] |};
     lastDeletedTask := Null |}.

(** A state as [hydrate] leaves it when the stored blob carries a history
    entry and no task. *)
Definition stale_history_state : State :=
  {| persisted :=
       {| version := CURRENT_VERSION;
          tasks := [];
          projects := [];
          settings := default_settings;
          completionHistory := [mkEntry "2024-03-02" 1] |};
     lastDeletedTask := Null |}.

(** [one_done_state] after its task was deleted: the task sits in the
    undo slot. *)
Definition just_deleted_state : State :=
  {| persisted :=
       {| version := CURRENT_VERSION;
          tasks := [];
          projects := [];
          settings := default_settings;
          completionHistory := [] |};
     lastDeletedTask := Val done_yesterday |}.

(** The input [{ title: "   " }]. *)
Definition blank_input : CreateTaskInput :=
  {| input_title := "   ";
     input_description := None;
     input_projectId := Undefined;
     input_priority := None;
     input_dueDate := Undefined |}.

Definition sample_now : string := "2024-03-03T08:00:00.000Z".

Definition sample_uuid : string := "k3x9a1bz".

(** A working [localStorage] with nothing under the key, and room for
    any text. *)
Definition empty_storage : LocalStorage :=
  {| readable := true; accepts := fun _ => true; item := None |}.

Definition storage_holding (t : text) : LocalStorage :=
  {| readable := true; accepts := fun _ => true; item := Some t |}.

(** A [localStorage] holding [t] that has room for texts of [JSON] arrays
    only up to [limit] elements, and for any other text. *)
Definition small_storage (limit : nat) (t : text) : LocalStorage :=
  {| readable := true;
     accepts := fun t' =>
       match t' with
       | JSONText (VArr items) => (List.length items <=? limit)%nat
       | _ => true
       end;
     item := Some t |}.

(** The FocusList storage, working and empty, with room for anything. *)
Definition empty_focus_storage : FocusList.LocalStorage :=
  FocusList.mkLocalStorage true (fun _ _ => true) None None.

(** The engine state of a fresh session. *)
Definition fresh_state : State :=
  {| persisted := getInitialState sample_now; lastDeletedTask := Null |}.

Definition done_today : Task :=
  {| id := "t2";
     title := "Send invoice";
     description := Some "";
     status := done;
     priority := high;
     projectId := Null;
     dueDate := Null;
     createdAt := "2024-03-03T08:00:00.000Z";
     updatedAt := "2024-03-03T09:15:00.000Z";
     completedAt := Val "2024-03-03T09:15:00.000Z";
     isPinned := Some false;
     tags := Some [] |}.

(** The time value of 2024-03-03T10:00:00.000Z. *)
Definition sample_current : Z := 1709460000000%Z.

(** A zone two hours east of UTC the whole year (Africa/Johannesburg,
    for one). *)
Definition two_hours_east : TimeZone := fixedZone 120.

(** Europe/London in 2024: one hour east of UTC from 2024-03-31T01:00Z
    until 2024-10-27T01:00Z, on UTC before and after. *)
Definition london_2024 : TimeZone :=
  {| offsetAt := fun t =>
       if (1711846800000 <=? t)%Z && (t <? 1729990800000)%Z
       then 3600000%Z else 0%Z;
     offsetOfLocal := fun t =>
       if (1711850400000 <=? t)%Z && (t <? 1729994400000)%Z
       then 3600000%Z else 0%Z |}.

(** The time value of 2024-04-01T11:00:00.000Z, 12:00 in London. *)
Definition sample_after_change : Z := 1711969200000%Z.

Definition done_on_change_day : Task :=
  {| id := "t3";
     title := "Book train";
     description := Some "";
     status := done;
     priority := low;
     projectId := Null;
     dueDate := Null;
     createdAt := "2024-03-30T09:00:00.000Z";
     updatedAt := "2024-03-31T15:00:00.000Z";
     completedAt := Val "2024-03-31T15:00:00.000Z";
     isPinned := Some false;
     tags := Some [] |}.

(** [getInitialState()] with the version replaced by NaN. *)
Definition nan_version_state : PersistedState :=
  {| version := NaN;
     tasks := tasks (getInitialState sample_now);
     projects := projects (getInitialState sample_now);
     settings := settings (getInitialState sample_now);
     completionHistory := [] |}.

(** [getInitialState()] with settings that lack defaultProjectId. *)
Definition partial_settings_state : PersistedState :=
  {| version := CURRENT_VERSION;
     tasks := tasks (getInitialState sample_now);
     projects := projects (getInitialState sample_now);
     settings :=
       {| confirmBeforeDelete := true;
          enableSounds := false;
          showOnboarding := true;
          defaultProjectId := Undefined |};
     completionHistory := [] |}.

End Samples.

(* ================================================================== *)
(** * Properties *)

Import JS Types Repr Analytics Storage Engine AppShell Vocabulary Samples.

(** ** The date map and the sort *)

Section DateMapFacts.

Lemma map_get_set (k k' : string) (v : nat) (m : DateMap) :
  map_get k (map_set k' v m) = if k =? k' then Some v else map_get k m.
Proof.
  induction m as [|[k0 v0] m IH]; simpl.
  - destruct (k =? k'); reflexivity.
  - destruct (String.eqb_spec k' k0) as [->|Hne]; simpl.
    + destruct (k =? k0); reflexivity.
    + rewrite IH.
      destruct (String.eqb_spec k k0) as [->|Hk]; [|reflexivity].
      destruct (String.eqb_spec k0 k'); [congruence|reflexivity].
Qed.

Lemma map_set_keys (k : string) (v : nat) (m : DateMap) :
  forall x, In x (map fst (map_set k v m)) <-> x = k \/ In x (map fst m).
Proof.
  induction m as [|[k0 v0] m IH]; intros x; simpl.
  - intuition congruence.
  - destruct (String.eqb_spec k k0) as [->|Hne]; simpl.
    + intuition congruence.
    + rewrite IH. intuition congruence.
Qed.

Lemma map_set_NoDup (k : string) (v : nat) (m : DateMap) :
  NoDup (map fst m) -> NoDup (map fst (map_set k v m)).
Proof.
  induction m as [|[k0 v0] m IH]; simpl; intros Hnd.
  - constructor; [intros []|constructor].
  - inversion Hnd as [|? ? Hnotin Hnd']; subst.
    destruct (String.eqb_spec k k0) as [->|Hne]; simpl.
    + constructor; assumption.
    + constructor; [|apply IH; assumption].
      rewrite map_set_keys. intros [Heq|Hin]; [congruence|contradiction].
Qed.

Lemma addTask_NoDup (m : DateMap) (t : Task) :
  NoDup (map fst m) -> NoDup (map fst (addTask m t)).
Proof.
  intros Hnd. unfold addTask.
  destruct (negb (truthy (completedAt t))); [assumption|].
  destruct (completedAt t); try assumption.
  apply map_set_NoDup; assumption.
Qed.

Lemma fold_addTask_NoDup (ts : list Task) :
  forall m, NoDup (map fst m) -> NoDup (map fst (fold_left addTask ts m)).
Proof.
  induction ts as [|t ts IH]; intros m Hnd; simpl; [assumption|].
  apply IH, addTask_NoDup, Hnd.
Qed.

(** What one turn of the loop does to the entry of [k]. *)
Lemma map_get_addTask (k : string) (m : DateMap) (t : Task) :
  map_get k (addTask m t) =
  if completedOn k t
  then Some (match map_get k m with Some n => n | None => 0 end + 1)
  else map_get k m.
Proof.
  unfold addTask, completedOn, truthy.
  destruct (completedAt t) as [| |c]; simpl; try reflexivity.
  destruct (truthy_string c); simpl; [|reflexivity].
  rewrite map_get_set.
  destruct (String.eqb_spec k (slice0 10 c)) as [->|Hne].
  - rewrite String.eqb_refl. reflexivity.
  - destruct (String.eqb_spec (slice0 10 c) k); [congruence|reflexivity].
Qed.

(** After the loop the entry of [k] holds what it held before plus the
    number of tasks completed on [k]; a day without such a task gets no
    entry. *)
Lemma map_get_fold_addTask (k : string) (ts : list Task) :
  forall m,
    map_get k (fold_left addTask ts m) =
    match List.length (filter (completedOn k) ts) with
    | O => map_get k m
    | S n => Some (match map_get k m with Some c => c | None => 0 end + S n)
    end.
Proof.
  induction ts as [|t ts IH]; intros m; simpl; [reflexivity|].
  rewrite IH, map_get_addTask.
  destruct (completedOn k t); simpl.
  - destruct (List.length (filter (completedOn k) ts)); f_equal; lia.
  - reflexivity.
Qed.

Lemma sort_insert_perm {A} (cmp : A -> A -> Z) (x : A) (l : list A) :
  Permutation (x :: l) (sort_insert cmp x l).
Proof.
  induction l as [|y l IH]; simpl; [reflexivity|].
  destruct (cmp x y <=? 0)%Z; [reflexivity|].
  rewrite perm_swap. apply perm_skip, IH.
Qed.

Lemma sort_perm {A} (cmp : A -> A -> Z) (l : list A) :
  Permutation l (sort cmp l).
Proof.
  induction l as [|x l IH]; simpl; [reflexivity|].
  rewrite <- sort_insert_perm. apply perm_skip, IH.
Qed.

Lemma map_get_In (k : string) (v : nat) (m : DateMap) :
  NoDup (map fst m) -> (map_get k m = Some v <-> In (k, v) m).
Proof.
  induction m as [|[k0 v0] m IH]; simpl; intros Hnd.
  - split; [discriminate|tauto].
  - inversion Hnd as [|? ? Hnotin Hnd']; subst.
    destruct (String.eqb_spec k k0) as [->|Hne].
    + split.
      * intros [= ->]. left; reflexivity.
      * intros [[= ->]|Hin]; [reflexivity|].
        exfalso. apply Hnotin. change k0 with (fst (k0, v)). apply in_map, Hin.
    + rewrite (IH Hnd'). split; [tauto|].
      intros [[= -> ->]|Hin]; [congruence|assumption].
Qed.

Lemma map_get_None (k : string) (m : DateMap) :
  map_get k m = None <-> ~ In k (map fst m).
Proof.
  induction m as [|[k0 v0] m IH]; simpl.
  - tauto.
  - destruct (String.eqb_spec k k0) as [->|Hne].
    + split; [discriminate|tauto].
    + rewrite IH. intuition congruence.
Qed.

(** Looking a key up does not depend on the order of the entries. *)
Lemma map_get_perm (k : string) (m m' : DateMap) :
  NoDup (map fst m) -> Permutation m m' -> map_get k m' = map_get k m.
Proof.
  intros Hnd Hperm.
  assert (Hnd' : NoDup (map fst m')).
  { eapply Permutation_NoDup; [apply Permutation_map, Hperm|assumption]. }
  destruct (map_get k m) as [v|] eqn:E.
  - apply map_get_In; [assumption|].
    eapply Permutation_in; [exact Hperm|].
    apply map_get_In; assumption.
  - apply map_get_None. apply map_get_None in E. intros Hin. apply E.
    eapply Permutation_in; [apply Permutation_map, Permutation_sym, Hperm|assumption].
Qed.

Lemma find_entries (k : string) (m : DateMap) :
  find (fun entry => date entry =? k) (map (fun e => mkEntry (fst e) (snd e)) m)
  = option_map (mkEntry k) (map_get k m).
Proof.
  induction m as [|[k0 v0] m IH]; simpl; [reflexivity|].
  rewrite String.eqb_sym.
  destruct (String.eqb_spec k k0) as [->|Hne]; [reflexivity|apply IH].
Qed.

(** The history entry of a day, read off the task list. *)
Lemma find_computeCompletionHistory (k : string) (ts : list Task) :
  find (fun entry => date entry =? k) (computeCompletionHistory ts) =
  match List.length (filter (completedOn k) ts) with
  | O => None
  | S n => Some (mkEntry k (S n))
  end.
Proof.
  unfold computeCompletionHistory.
  rewrite find_entries.
  rewrite (map_get_perm k (fold_left addTask ts [])).
  - rewrite map_get_fold_addTask. simpl.
    destruct (List.length (filter (completedOn k) ts)); reflexivity.
  - apply fold_addTask_NoDup. constructor.
  - apply sort_perm.
Qed.

End DateMapFacts.

(** ** Day keys *)

Section DateFacts.

Lemma length_append (a b : string) :
  String.length (a ++ b) = String.length a + String.length b.
Proof.
  induction a as [|c a IH]; simpl; [reflexivity|]. rewrite IH. reflexivity.
Qed.

Lemma length_digits (width : nat) :
  forall n, String.length (digits width n) = width.
Proof.
  induction width as [|w IH]; intros n; simpl; [reflexivity|].
  rewrite length_append, IH. simpl. lia.
Qed.

Lemma length_isoDate (day : Z) : 10 <= String.length (isoDate day).
Proof.
  unfold isoDate. destruct (civil_from_days day) as [[y m] d].
  rewrite !length_append, !length_digits.
  destruct ((0 <=? y)%Z && (y <=? 9999)%Z).
  - rewrite length_digits. simpl. lia.
  - rewrite length_append, length_digits. simpl. lia.
Qed.

Lemma slice0_append (n : nat) (a b : string) :
  n <= String.length a -> slice0 n (a ++ b) = slice0 n a.
Proof.
  unfold slice0. revert a.
  induction n as [|n IH]; intros a Hlen.
  - destruct a; simpl; [destruct b|]; reflexivity.
  - destruct a as [|c a]; simpl in *; [lia|].
    rewrite IH by lia. reflexivity.
Qed.

(** A day key names the UTC day of the time value. *)
Lemma toDateKey_day (t : Z) : toDateKey t = dateKeyOfDay (t / msPerDay).
Proof.
  unfold toDateKey, toISOString, dateKeyOfDay.
  apply slice0_append, length_isoDate.
Qed.

End DateFacts.

(** ** Analytics *)

Section AnalyticsFacts.

Variable dayKey : nat -> string.
Variable tasks : list Task.
Variable history : list CompletionEntry.

Lemma completedOn_dayOf (key : string) (t : Task) :
  completedOn key t = true <-> dayOf (completedAt t) = Some key.
Proof.
  unfold completedOn, dayOf.
  destruct (completedAt t) as [| |c]; try (split; discriminate).
  destruct (truthy_string c); simpl; [|split; discriminate].
  rewrite String.eqb_eq. split; congruence.
Qed.

Lemma hasCompletion_iff (key : string) :
  hasCompletion tasks history key = true <-> day_has_completion tasks history key.
Proof.
  unfold hasCompletion, day_has_completion.
  rewrite orb_true_iff, !existsb_exists.
  split.
  - intros [(d & Hin & Heq)|(t & Hin & Hon)].
    + left. apply String.eqb_eq in Heq. subst. assumption.
    + right. exists t. split; [assumption|]. apply completedOn_dayOf, Hon.
  - intros [Hin|(t & Hin & Hday)].
    + left. exists key. split; [assumption|apply String.eqb_refl].
    + right. exists t. split; [assumption|]. apply completedOn_dayOf, Hday.
Qed.

(** The loop, started at [offset] with [acc] days counted and
    [remaining] turns left. *)
Lemma streakLoop_spec (remaining : nat) :
  forall offset acc,
    let n := streakLoop dayKey tasks history remaining offset acc in
    acc <= n <= acc + remaining
    /\ (forall i, i < n - acc ->
                  hasCompletion tasks history (dayKey (offset + i)) = true)
    /\ (n - acc < remaining ->
        hasCompletion tasks history (dayKey (offset + (n - acc))) = false).
Proof.
  induction remaining as [|r IH]; intros offset acc; simpl.
  - repeat split; try lia.
  - destruct (hasCompletion tasks history (dayKey offset)) eqn:E.
    + specialize (IH (S offset) (S acc)). simpl in IH.
      destruct IH as (Hb & Hall & Hstop).
      set (n := streakLoop dayKey tasks history r (S offset) (S acc)) in *.
      repeat split; try lia.
      * intros i Hi. destruct i as [|i].
        -- rewrite Nat.add_0_r. exact E.
        -- replace (offset + S i) with (S offset + i) by lia.
           apply Hall. lia.
      * intros Hlt.
        replace (offset + (n - acc)) with (S offset + (n - S acc)) by lia.
        apply Hstop. lia.
    + repeat split; try lia.
      intros _. rewrite Nat.sub_diag, Nat.add_0_r. exact E.
Qed.

End AnalyticsFacts.

(** C8: with history = computeCompletionHistory(T), the count of the
    history entry for today's day-key, when there is one, is the number of
    tasks of T completed on today's day-key, so the lookup path and the
    scanning path of tasksCompletedToday give the same value; there is no
    such entry exactly when no task was completed on that day. *)
Theorem tasksCompletedToday_paths_agree (zone : TimeZone) (current : Z) (T : list Task) :
  let todayKey := toDateKey (startOfDay zone current) in
  let lookup := find (fun e => date e =? todayKey) (computeCompletionHistory T) in
  let scan := List.length (filter (completedOn todayKey) T) in
  (forall entry, lookup = Some entry -> count entry = scan)
  /\ (lookup = None <-> scan = 0)
  /\ tasksCompletedToday (computeAnalytics zone current T (computeCompletionHistory T))
     = scan.
Proof.
  intros todayKey lookup scan. subst lookup scan.
  pose proof (find_computeCompletionHistory todayKey T) as Hfind.
  split; [|split].
  - intros entry Hentry. rewrite Hentry in Hfind.
    destruct (List.length (filter (completedOn todayKey) T)); [discriminate|].
    injection Hfind as ->. reflexivity.
  - rewrite Hfind.
    destruct (List.length (filter (completedOn todayKey) T));
      split; try reflexivity; discriminate.
  - unfold computeAnalytics. cbn [tasksCompletedToday].
    fold todayKey. rewrite Hfind.
    destruct (List.length (filter (completedOn todayKey) T)); reflexivity.
Qed.

(** The streak loop over its own keys: streakDays is at most 365, each of
    the first streakDays keys of the loop has a completion, and the loop
    stopped at a key without one unless it ran its 365 turns. *)
Lemma streakDays_loop
      (zone : TimeZone) (current : Z) (tasks : list Task) (history : list CompletionEntry) :
  let key := dayKeyAt zone (startOfDay zone current) in
  let n := streakDays (computeAnalytics zone current tasks history) in
  n <= 365
  /\ (forall i, i < n -> day_has_completion tasks history (key i))
  /\ (n < 365 -> ~ day_has_completion tasks history (key n)).
Proof.
  intros key n.
  assert (Hn : n = streakLoop key tasks history 365 0 0) by reflexivity.
  clearbody n.
  pose proof (streakLoop_spec key tasks history 365 0 0) as Hspec.
  cbv zeta in Hspec. rewrite <- Hn in Hspec. clear Hn.
  destruct Hspec as (Hb & Hall & Hstop).
  rewrite Nat.sub_0_r in *.
  split; [lia|split].
  - intros i Hi. apply hasCompletion_iff. apply (Hall i Hi).
  - intros Hlt Hday. apply hasCompletion_iff in Hday.
    specialize (Hstop Hlt). cbn [Nat.add] in Hstop. congruence.
Qed.

(** The streak scenarios, at 2024-03-03T10:00Z in a zone on UTC: tasks
    completed today and yesterday make a streak of 2; one completed
    yesterday only makes a streak of 0. *)
Example streak_two_consecutive_days :
  streakDays (computeAnalytics (fixedZone 0) sample_current [done_today; done_yesterday]
                (computeCompletionHistory [done_today; done_yesterday])) = 2.
Proof. reflexivity. Qed.

Example streak_gap_today :
  streakDays (computeAnalytics (fixedZone 0) sample_current [done_yesterday]
                (computeCompletionHistory [done_yesterday])) = 0.
Proof. reflexivity. Qed.

(** C9, on the code: two hours east of UTC all year, at 12:00 local time
    on 2024-03-03 (10:00 UTC), with one task, completed the day before.
    Today, 2024-03-03 by the local clock and by UTC, has no completion and
    2024-03-02 has one, so the streak of the claim is 0.  The code starts
    from todayKey = "2024-03-02", the UTC date of local midnight, and
    returns streakDays = 1.  With a second task completed today, two
    consecutive days ending today, it returns 1 again, not 2. *)
Theorem streak_east_of_utc :
  let zone := two_hours_east in
  let tasks := [done_yesterday] in
  let history := computeCompletionHistory tasks in
  let both := [done_today; done_yesterday] in
  toISOString (LocalTime zone sample_current) = "2024-03-03T12:00:00.000Z"
  /\ toISOString sample_current = "2024-03-03T10:00:00.000Z"
  /\ ~ day_has_completion tasks history "2024-03-03"
  /\ day_has_completion tasks history "2024-03-02"
  /\ toDateKey (startOfDay zone sample_current) = "2024-03-02"
  /\ streakDays (computeAnalytics zone sample_current tasks history) = 1
  /\ day_has_completion both (computeCompletionHistory both) "2024-03-03"
  /\ day_has_completion both (computeCompletionHistory both) "2024-03-02"
  /\ streakDays (computeAnalytics zone sample_current both
                                  (computeCompletionHistory both)) = 1.
Proof.
  intros zone tasks history both.
  split; [reflexivity|]. split; [reflexivity|].
  split; [intros H; apply hasCompletion_iff in H; discriminate H|].
  split; [apply hasCompletion_iff; reflexivity|].
  split; [reflexivity|]. split; [reflexivity|].
  split; [apply hasCompletion_iff; reflexivity|].
  split; [apply hasCompletion_iff; reflexivity|].
  reflexivity.
Qed.

(** Where the offset changes, the loop can meet one key twice.  In London
    at 12:00 on 2024-04-01, the day after the clocks went forward, local
    midnight of 04-01 is 23:00 UTC of 03-31 and local midnight of 03-31 is
    00:00 UTC of 03-31: offsets 0 and 1 both give the key "2024-03-31",
    and one task completed on 03-31 makes a streak of 2. *)
Example streak_across_clock_change :
  dayKeyAt london_2024 (startOfDay london_2024 sample_after_change) 0 = "2024-03-31"
  /\ dayKeyAt london_2024 (startOfDay london_2024 sample_after_change) 1 = "2024-03-31"
  /\ dayKeyAt london_2024 (startOfDay london_2024 sample_after_change) 2 = "2024-03-30"
  /\ streakDays (computeAnalytics london_2024 sample_after_change [done_on_change_day]
                   (computeCompletionHistory [done_on_change_day])) = 2.
Proof. repeat split; reflexivity. Qed.

(** C10: completionRate is a finite number (never NaN, never an infinity)
    between 0 and 1; it is 0 for an empty task list and, for a non-empty
    one, the number of tasks of the list with status done divided by the
    number of tasks of the list, which are the summary's completedTasks
    and totalTasks. *)
Theorem completionRate_in_unit_interval
        (zone : TimeZone) (current : Z) (tasks : list Task) (history : list CompletionEntry) :
  let summary := computeAnalytics zone current tasks history in
  let completed := List.length (filter (fun t => status_eqb (status t) done) tasks) in
  let total := List.length tasks in
  totalTasks summary = total
  /\ completedTasks summary = completed
  /\ exists q : Q,
       completionRate summary = Fin q
       /\ (0 <= q)%Q /\ (q <= 1)%Q
       /\ match tasks with
          | [] => q = 0%Q
          | _ :: _ =>
              0 < total
              /\ (q * inject_Z (Z.of_nat total) == inject_Z (Z.of_nat completed))%Q
          end.
Proof.
  intros summary completed total. subst summary.
  split; [reflexivity|]. split; [reflexivity|].
  unfold computeAnalytics. cbn [completionRate].
  fold completed. fold total.
  assert (Hle : completed <= total) by apply filter_length_le.
  clearbody completed.
  destruct tasks as [|t ts].
  - exists 0%Q. cbn. repeat split; apply Qle_refl || discriminate.
  - subst total. cbn [List.length] in *.
    set (n := List.length ts) in *. clearbody n.
    cbn [Nat.eqb div_length].
    exists (Z.of_nat completed # Pos.of_nat (S n))%Q.
    split; [reflexivity|]. split; [|split; [|split]].
    + unfold Qle. cbn [Qnum Qden]. lia.
    + unfold Qle. cbn [Qnum Qden]. lia.
    + lia.
    + unfold Qeq, Qmult, inject_Z. cbn [Qnum Qden]. lia.
Qed.

(** ** The reducer *)

Section ReducerFacts.

Variables now uuid : string.

Lemma map_unmatched (f : Task -> Task) (id_ : string) (ts : list Task) :
  (forall t, In t ts -> id t <> id_) ->
  map (fun t => if id t =? id_ then f t else t) ts = ts.
Proof.
  induction ts as [|t ts IH]; simpl; intros Hno; [reflexivity|].
  destruct (String.eqb_spec (id t) id_) as [Heq|_].
  - exfalso. apply (Hno t); [left; reflexivity|exact Heq].
  - f_equal. apply IH. intros t' Hin. apply Hno. right; exact Hin.
Qed.

Lemma filter_unmatched (id_ : string) (ts : list Task) :
  (forall t, In t ts -> id t <> id_) ->
  filter (fun t => negb (id t =? id_)) ts = ts.
Proof.
  induction ts as [|t ts IH]; simpl; intros Hno; [reflexivity|].
  destruct (String.eqb_spec (id t) id_) as [Heq|_]; simpl.
  - exfalso. apply (Hno t); [left; reflexivity|exact Heq].
  - f_equal. apply IH. intros t' Hin. apply Hno. right; exact Hin.
Qed.

Lemma find_unmatched (id_ : string) (ts : list Task) :
  (forall t, In t ts -> id t <> id_) ->
  find (fun t => id t =? id_) ts = None.
Proof.
  induction ts as [|t ts IH]; simpl; intros Hno; [reflexivity|].
  destruct (String.eqb_spec (id t) id_) as [Heq|_].
  - exfalso. apply (Hno t); [left; reflexivity|exact Heq].
  - apply IH. intros t' Hin. apply Hno. right; exact Hin.
Qed.

(** Deleting an id that matches no task overwrites the undo slot with
    [null], whatever it held. *)
Lemma delete_unknown_id_undo_slot (state : State) (id_ : string) :
  (forall t, In t (tasks state) -> id t <> id_) ->
  lastDeletedTask (reducer now uuid state (delete_task id_)) = Null.
Proof.
  intros Hno. simpl. rewrite find_unmatched by exact Hno. reflexivity.
Qed.

Lemma forallb_map_ok (f : Task -> Task) (ts : list Task) :
  (forall t, task_ok t = true -> task_ok (f t) = true) ->
  forallb task_ok ts = true -> forallb task_ok (map f ts) = true.
Proof.
  intros Hf. induction ts as [|t ts IH]; simpl; [reflexivity|].
  rewrite !andb_true_iff. intros [Ht Hts]. split; [apply Hf, Ht|apply IH, Hts].
Qed.

Lemma forallb_filter_ok (p : Task -> bool) (ts : list Task) :
  forallb task_ok ts = true -> forallb task_ok (filter p ts) = true.
Proof.
  induction ts as [|t ts IH]; simpl; [reflexivity|].
  rewrite andb_true_iff. intros [Ht Hts].
  destruct (p t); simpl; [rewrite Ht; simpl|]; apply IH, Hts.
Qed.

Lemma patchTask_ok (task : Task) (patch : TaskPatch) :
  patch_ok patch = true -> task_ok task = true ->
  task_ok (patchTask now task patch) = true.
Proof.
  unfold patch_ok, task_ok, patchTask; simpl.
  destruct (patch_status patch), (patch_completedAt patch);
    simpl; intros Hp Ht; congruence.
Qed.

(** The patches of [handleComplete] set status and completedAt in
    agreement. *)
Lemma completePatch_ok (stamp : string) (task : Task) :
  patch_ok (completePatch stamp task) = true.
Proof.
  unfold patch_ok, completePatch; simpl.
  destruct (status_eqb (status task) done); reflexivity.
Qed.

End ReducerFacts.

(** C1, as stated, fails: the task of [one_done_state] is done and
    stamped; the action update-task with the patch [{ status: "todo" }]
    sets it back to todo and leaves its completedAt in place. *)
Lemma update_task_status_only_breaks_invariant :
  state_ok one_done_state = true
  /\ state_ok (reducer sample_now sample_uuid one_done_state
                       (update_task "t1" reopen_patch)) = false
  /\ map (fun t => (status t, completedAt t))
         (tasks (reducer sample_now sample_uuid one_done_state
                         (update_task "t1" reopen_patch)))
     = [(todo, Val "2024-03-02T17:30:00.000Z")].
Proof. repeat split. Qed.

(** C1, amended: from a state whose tasks (those of the list and the one
    of the undo slot) all have completedAt != null iff status == done, the
    reducer reaches such a state again by create-task, delete-task,
    restore-last-deleted, update-settings and create-project, by
    bulk-update-status to done, by hydrate with a payload whose tasks are
    such, and by update-task with a patch that leaves status and completedAt
    alone or sets both in agreement. *)
Theorem reducer_keeps_completedAt_invariant
        (now uuid : string) (state : State) (action : Action) :
  state_ok state = true ->
  action_ok action = true ->
  state_ok (reducer now uuid state action) = true.
Proof.
  unfold state_ok. rewrite andb_true_iff. intros [Hts Hslot] Hact.
  destruct action as [payload|payload|id_ patch|id_|ids_ status_| |payload|name color];
    simpl in *.
  - rewrite Hact. reflexivity.
  - rewrite Hts, Hslot. reflexivity.
  - rewrite Hslot, andb_true_r.
    apply forallb_map_ok; [|exact Hts].
    intros t Ht. destruct (id t =? id_); [|exact Ht].
    apply patchTask_ok; assumption.
  - rewrite forallb_filter_ok by exact Hts. simpl.
    destruct (find (fun t => id t =? id_) (tasks state)) as [t|] eqn:E; [|reflexivity].
    apply find_some in E. destruct E as [Hin _].
    rewrite forallb_forall in Hts. apply Hts, Hin.
  - rewrite Hslot, andb_true_r.
    apply forallb_map_ok; [|exact Hts].
    intros t Ht. destruct (negb (has ids_ (id t))); [exact Ht|].
    rewrite Hact. destruct status_; try discriminate. reflexivity.
  - destruct (lastDeletedTask state) as [| |deleted] eqn:E; simpl.
    + rewrite Hts, E. reflexivity.
    + rewrite Hts, E. reflexivity.
    + simpl in Hslot. rewrite Hslot, Hts. reflexivity.
  - rewrite Hts, Hslot. reflexivity.
  - rewrite Hts, Hslot. reflexivity.
Qed.

Lemma reducer_keeps_completedAt_invariant_witness :
  state_ok (reducer sample_now sample_uuid one_done_state
                    (bulk_update_status ["t1"] done)) = true.
Proof.
  apply (reducer_keeps_completedAt_invariant
           sample_now sample_uuid one_done_state (bulk_update_status ["t1"] done));
    reflexivity.
Defined.

(** C2, as stated, fails: create-task with the title "   " adds a task. *)
Lemma create_task_blank_title_adds_task :
  trim (input_title blank_input) = ""
  /\ reducer sample_now sample_uuid one_done_state (create_task blank_input)
     <> one_done_state
  /\ map title (tasks (reducer sample_now sample_uuid one_done_state
                               (create_task blank_input)))
     = [""; "Write report"].
Proof.
  split; [reflexivity|]. split; [|reflexivity].
  intros H. apply (f_equal (fun s : State => List.length (tasks s))) in H.
  discriminate H.
Qed.

(** C2, amended: for a title that trims to the empty string, the caller's
    handleCreateTask dispatches nothing and the state stays as it is; the
    reducer's create-task has no such guard and prepends a todo task whose
    title is the empty string. *)
Theorem blank_title_guarded_by_caller
        (now uuid : string) (state : State) (input : CreateTaskInput) :
  trim (input_title input) = "" ->
  handleCreateTask now uuid state (input_title input) = state
  /\ exists task,
      tasks (reducer now uuid state (create_task input)) = task :: tasks state
      /\ title task = "" /\ status task = todo /\ completedAt task = Null.
Proof.
  intros Hblank. split.
  - unfold handleCreateTask. rewrite Hblank. reflexivity.
  - simpl. eexists. split; [reflexivity|]. simpl. auto.
Qed.

Lemma blank_title_guarded_by_caller_witness :
  handleCreateTask sample_now sample_uuid one_done_state (input_title blank_input)
  = one_done_state
  /\ exists task,
      tasks (reducer sample_now sample_uuid one_done_state (create_task blank_input))
      = task :: tasks one_done_state
      /\ title task = "" /\ status task = todo /\ completedAt task = Null.
Proof.
  apply (blank_title_guarded_by_caller sample_now sample_uuid one_done_state blank_input).
  reflexivity.
Defined.

(** C6, as stated, fails.  No task has the id "nope"; update-task on it
    recomputes the completion history, which in [stale_history_state]
    differs from the stored one, and delete-task on it empties the undo
    slot of [just_deleted_state]. *)
Lemma unknown_id_changes_state :
  existsb (fun t => id t =? "nope") (tasks stale_history_state) = false
  /\ reducer sample_now sample_uuid stale_history_state (update_task "nope" no_patch)
     <> stale_history_state
  /\ completionHistory (reducer sample_now sample_uuid stale_history_state
                                (update_task "nope" no_patch)) = []
  /\ existsb (fun t => id t =? "nope") (tasks just_deleted_state) = false
  /\ reducer sample_now sample_uuid just_deleted_state (delete_task "nope")
     <> just_deleted_state
  /\ lastDeletedTask (reducer sample_now sample_uuid just_deleted_state
                              (delete_task "nope")) = Null.
Proof.
  repeat split; try reflexivity; intros H.
  - apply (f_equal (fun s : State => List.length (completionHistory s))) in H.
    discriminate H.
  - apply (f_equal lastDeletedTask) in H. discriminate H.
Qed.

(** C6, amended: in a state whose completion history is the one computed
    from its tasks, for an id that matches no task, update-task returns the
    state as it is, and delete-task leaves version, task list, projects,
    settings and completion history as they are. *)
Theorem unknown_id_leaves_data
        (now uuid : string) (state : State) (id_ : string) (patch : TaskPatch) :
  (forall t, In t (tasks state) -> id t <> id_) ->
  completionHistory state = computeCompletionHistory (tasks state) ->
  reducer now uuid state (update_task id_ patch) = state
  /\ persisted (reducer now uuid state (delete_task id_)) = persisted state.
Proof.
  intros Hno Hsync.
  destruct state as [[v ts ps st h] slot]. simpl in *. subst h.
  split.
  - unfold with_tasks; simpl. rewrite map_unmatched by exact Hno. reflexivity.
  - unfold with_tasks; simpl. rewrite filter_unmatched by exact Hno. reflexivity.
Qed.

Lemma unknown_id_leaves_data_witness :
  reducer sample_now sample_uuid one_done_state (update_task "nope" reopen_patch)
  = one_done_state
  /\ persisted (reducer sample_now sample_uuid one_done_state (delete_task "nope"))
     = persisted one_done_state.
Proof.
  apply (unknown_id_leaves_data sample_now sample_uuid one_done_state "nope" reopen_patch).
  - simpl. intros t [<-|[]]. discriminate.
  - reflexivity.
Defined.

(** C7: bulkUpdateStatus(ids, "done") run twice leaves on every task the
    completedAt the first run left.  The first run stamps the selected
    tasks that had none with its own time and keeps every completedAt that
    was already there. *)
Theorem bulk_done_twice_keeps_completedAt
        (now1 uuid1 now2 uuid2 : string) (state : State) (ids : list string) :
  let once := reducer now1 uuid1 state (bulk_update_status ids done) in
  let twice := reducer now2 uuid2 once (bulk_update_status ids done) in
  map completedAt (tasks twice) = map completedAt (tasks once)
  /\ Forall2 (fun before after =>
               completedAt after =
               match completedAt before with
               | Val c => Val c
               | absent => if has ids (id before) then Val now1 else absent
               end)
            (tasks state) (tasks once).
Proof.
  simpl. split.
  - rewrite !map_map. apply map_ext. intros t.
    destruct (has ids (id t)) eqn:E; simpl; rewrite E; reflexivity.
  - induction (tasks state) as [|t ts IH]; simpl; constructor; [|exact IH].
    destruct (has ids (id t)); simpl; destruct (completedAt t); reflexivity.
Qed.

(** What [update_task_status_only_breaks_invariant] shows for update-task
    also happens with bulk-update-status to a status other than done: the
    selected done task keeps its completedAt. *)
Lemma bulk_reopen_keeps_completedAt :
  map (fun t => (status t, completedAt t))
      (tasks (reducer sample_now sample_uuid one_done_state
                      (bulk_update_status ["t1"] todo)))
  = [(todo, Val "2024-03-02T17:30:00.000Z")].
Proof. reflexivity. Qed.

(** ** The typed view of a loaded state

    [raw] forgets nothing: two typed states with the same [raw] image are
    the same state, so a loaded state equal to [raw s] is the state [s]. *)

Section ReprFacts.

Lemma map_injective {A B} (f : A -> B) :
  (forall a a', f a = f a' -> a = a') ->
  forall l l', map f l = map f l' -> l = l'.
Proof.
  intros Hf. induction l as [|a l IH]; intros [|a' l'] H; simpl in H;
    try discriminate; [reflexivity|].
  injection H as Ha Hl. f_equal; [apply Hf, Ha|apply IH, Hl].
Qed.

Lemma of_nullable_VStr_injective (x y : nullable string) :
  of_nullable VStr x = of_nullable VStr y -> x = y.
Proof. destruct x, y; simpl; congruence. Qed.

Lemma of_option_VStr_injective (x y : option string) :
  of_option VStr x = of_option VStr y -> x = y.
Proof. destruct x, y; simpl; congruence. Qed.

Lemma of_option_VBool_injective (x y : option bool) :
  of_option VBool x = of_option VBool y -> x = y.
Proof. destruct x, y; simpl; congruence. Qed.

Lemma of_option_tags_injective (x y : option (list string)) :
  of_option (fun l => VArr (map VStr l)) x
  = of_option (fun l => VArr (map VStr l)) y -> x = y.
Proof.
  destruct x as [l|], y as [l'|]; simpl; try congruence.
  intros [= H]. f_equal. revert H. apply map_injective. congruence.
Qed.

Lemma status_name_injective (a b : TaskStatus) :
  status_name a = status_name b -> a = b.
Proof. destruct a, b; simpl; congruence. Qed.

Lemma priority_name_injective (a b : TaskPriority) :
  priority_name a = priority_name b -> a = b.
Proof. destruct a, b; simpl; congruence. Qed.

(** Each property of the object of a task, read by name. *)
Lemma Task_value_get (t : Task) :
  get (Task_value t) "id" = VStr (id t)
  /\ get (Task_value t) "title" = VStr (title t)
  /\ get (Task_value t) "description" = of_option VStr (description t)
  /\ get (Task_value t) "status" = VStr (status_name (status t))
  /\ get (Task_value t) "priority" = VStr (priority_name (priority t))
  /\ get (Task_value t) "projectId" = of_nullable VStr (projectId t)
  /\ get (Task_value t) "dueDate" = of_nullable VStr (dueDate t)
  /\ get (Task_value t) "createdAt" = VStr (createdAt t)
  /\ get (Task_value t) "updatedAt" = VStr (updatedAt t)
  /\ get (Task_value t) "completedAt" = of_nullable VStr (completedAt t)
  /\ get (Task_value t) "isPinned" = of_option VBool (isPinned t)
  /\ get (Task_value t) "tags"
     = of_option (fun l => VArr (map VStr l)) (tags t).
Proof.
  destruct t as [i ti de st pr pj du cr up co pin tg].
  destruct de, pj, du, co, pin, tg; repeat split.
Qed.

Lemma Task_value_injective (t t' : Task) :
  Task_value t = Task_value t' -> t = t'.
Proof.
  intros H.
  pose proof (Task_value_get t) as G. pose proof (Task_value_get t') as G'.
  rewrite H in G.
  destruct G as (G1 & G2 & G3 & G4 & G5 & G6 & G7 & G8 & G9 & G10 & G11 & G12).
  destruct G' as (G1' & G2' & G3' & G4' & G5' & G6' & G7' & G8' & G9' & G10' & G11' & G12').
  rewrite G1' in G1. rewrite G2' in G2. rewrite G3' in G3. rewrite G4' in G4.
  rewrite G5' in G5. rewrite G6' in G6. rewrite G7' in G7. rewrite G8' in G8.
  rewrite G9' in G9. rewrite G10' in G10. rewrite G11' in G11. rewrite G12' in G12.
  clear - G1 G2 G3 G4 G5 G6 G7 G8 G9 G10 G11 G12.
  destruct t as [i ti de st pr pj du cr up co pin tg].
  destruct t' as [i' ti' de' st' pr' pj' du' cr' up' co' pin' tg'].
  simpl in *.
  injection G1 as <-. injection G2 as <-. injection G8 as <-. injection G9 as <-.
  injection G4 as G4. apply status_name_injective in G4.
  injection G5 as G5. apply priority_name_injective in G5.
  apply of_option_VStr_injective in G3.
  apply of_nullable_VStr_injective in G6, G7, G10.
  apply of_option_VBool_injective in G11.
  apply of_option_tags_injective in G12.
  congruence.
Qed.

Lemma Project_value_injective (p p' : Project) :
  Project_value p = Project_value p' -> p = p'.
Proof.
  destruct p, p'; unfold Project_value; simpl. congruence.
Qed.

Lemma CompletionEntry_value_injective (e e' : CompletionEntry) :
  CompletionEntry_value e = CompletionEntry_value e' -> e = e'.
Proof.
  destruct e as [d c], e' as [d' c']; unfold CompletionEntry_value, of_nat; simpl.
  intros [= Hd Hc]. apply Nat2Z.inj in Hc. congruence.
Qed.

Lemma raw_injective (s s' : PersistedState) : raw s = raw s' -> s = s'.
Proof.
  destruct s as [v ts ps st h], s' as [v' ts' ps' st' h'].
  unfold raw; simpl. intros [= Hv Hts Hps Hst Hh].
  apply (map_injective _ Task_value_injective) in Hts.
  apply (map_injective _ Project_value_injective) in Hps.
  apply (map_injective _ CompletionEntry_value_injective) in Hh.
  congruence.
Qed.

End ReprFacts.

(** ** The storage gateway *)

Section JsonFacts.

Lemma jsonOf_obj (ps : list (string * value)) :
  jsonOf (VObj ps) = VObj (jsonProps ps).
Proof.
  reflexivity.
Qed.

Lemma jsonProps_app (ps qs : list (string * value)) :
  jsonProps (ps ++ qs) = jsonProps ps ++ jsonProps qs.
Proof.
  induction ps as [|[k v] ps IH]; simpl; [reflexivity|].
  rewrite IH. destruct v; reflexivity.
Qed.

Lemma jsonOf_strings (l : list string) :
  map jsonOf (map VStr l) = map VStr l.
Proof. rewrite map_map. apply map_ext. reflexivity. Qed.

Lemma map_fixed {A} (f : A -> value) (l : list A) :
  (forall a, jsonOf (f a) = f a) -> map jsonOf (map f l) = map f l.
Proof.
  intros Hf. rewrite map_map. apply map_ext. exact Hf.
Qed.

Lemma jsonOf_Task_value (t : Task) : jsonOf (Task_value t) = Task_value t.
Proof.
  unfold Task_value. rewrite jsonOf_obj. f_equal.
  destruct t as [i ti de st pr pj du cr up co pin tg]; cbn [Types.id title
    description status priority projectId dueDate createdAt updatedAt
    completedAt isPinned tags].
  destruct de, pj, du, co, pin, tg; simpl; rewrite ?jsonOf_strings; reflexivity.
Qed.

Lemma jsonOf_Project_value (p : Project) : jsonOf (Project_value p) = Project_value p.
Proof. reflexivity. Qed.

Lemma jsonOf_CompletionEntry_value (e : CompletionEntry) :
  jsonOf (CompletionEntry_value e) = CompletionEntry_value e.
Proof. reflexivity. Qed.

Lemma jsonOf_AppSettings_value (s : AppSettings) :
  jsonOf (AppSettings_value s) = AppSettings_value s.
Proof.
  destruct s as [dp c e o]. destruct dp; reflexivity.
Qed.

(** The properties of a typed state as [JSON.stringify] writes them. *)
Lemma jsonProps_PersistedState (s : PersistedState) :
  jsonProps (PersistedState_props s) =
  [("version", if isFinite (version s) then VNum (version s) else VNull);
   ("tasks", VArr (map Task_value (tasks s)));
   ("projects", VArr (map Project_value (projects s)));
   ("settings", AppSettings_value (settings s));
   ("completionHistory", VArr (map CompletionEntry_value (completionHistory s)))].
Proof.
  unfold PersistedState_props.
  cbn [jsonProps].
  change (jsonOf (VNum (version s)))
    with (if isFinite (version s) then VNum (version s) else VNull).
  change (jsonOf (VArr (map Task_value (tasks s))))
    with (VArr (map jsonOf (map Task_value (tasks s)))).
  change (jsonOf (VArr (map Project_value (projects s))))
    with (VArr (map jsonOf (map Project_value (projects s)))).
  change (jsonOf (VArr (map CompletionEntry_value (completionHistory s))))
    with (VArr (map jsonOf (map CompletionEntry_value (completionHistory s)))).
  rewrite (map_fixed Task_value) by apply jsonOf_Task_value.
  rewrite (map_fixed Project_value) by apply jsonOf_Project_value.
  rewrite (map_fixed CompletionEntry_value) by apply jsonOf_CompletionEntry_value.
  rewrite jsonOf_AppSettings_value.
  unfold AppSettings_value. 
  destruct (isFinite (version s)); reflexivity.
Qed.

Lemma coerceSettings_AppSettings_value (s : AppSettings) :
  defaultProjectId s <> Undefined ->
  coerceSettings (AppSettings_value s) = s.
Proof.
  destruct s as [dp c e o]. simpl. intros Hdp.
  destruct dp; [contradiction| |]; reflexivity.
Qed.

End JsonFacts.

Section GatewayFacts.

Variable now : string.

(** The text a successful [saveState] leaves under the key. *)
Lemma saveState_item (ls : LocalStorage) (next : value) :
  accepts ls (stringify next) = true ->
  saveState (Some ls) next
  = Some (mkLocalStorage (readable ls) (accepts ls) (Some (stringify next))).
Proof.
  intros Hw. unfold saveState, setItem; simpl. rewrite Hw. reflexivity.
Qed.

(** A failed write is swallowed and leaves the storage as it was. *)
Lemma saveState_write_failure (ls : LocalStorage) (next : value) :
  accepts ls (stringify next) = false -> saveState (Some ls) next = Some ls.
Proof.
  intros Hw. unfold saveState, setItem; simpl. rewrite Hw. reflexivity.
Qed.

(** X15: whatever the environment and the stored blob, the version
    [loadState] returns is a finite number and the settings it returns have
    a defaultProjectId that is a string or null. *)
Lemma loadState_always_valid (window : option LocalStorage) :
  isFinite (loaded_version (loadState now window)) = true
  /\ defaultProjectId (loaded_settings (loadState now window)) <> Undefined.
Proof.
  destruct window as [ls|]; [|split; [reflexivity|discriminate]].
  unfold loadState, loadState_try, getItem.
  destruct (readable ls); [|split; [reflexivity|discriminate]].
  destruct (item ls) as [t|]; [|split; [reflexivity|discriminate]].
  simpl.
  destruct (text_is_empty t); [split; [reflexivity|discriminate]|].
  destruct t as [s|v]; [split; [reflexivity|discriminate]|].
  simpl.
  destruct (isObject v); [|split; [reflexivity|discriminate]].
  simpl. split.
  - destruct (get v "version") as [| | |n| | |]; try reflexivity.
    destruct n; reflexivity.
  - unfold coerceSettings.
    destruct (isObject (get v "settings")); simpl; [|discriminate].
    destruct (get (get v "settings") "defaultProjectId"); discriminate.
Qed.

(** The blob the persist effect writes has the five PersistedState
    properties and, unless the slot is [undefined], lastDeletedTask. *)
Lemma persist_blob_keys (ls : LocalStorage) (state : State) :
  accepts ls (stringify (State_value state)) = true ->
  exists blob,
    persist (Some ls) state
    = Some (mkLocalStorage (readable ls) (accepts ls) (Some (JSONText blob)))
    /\ keys blob =
       ["version"; "tasks"; "projects"; "settings"; "completionHistory"]
       ++ match lastDeletedTask state with
          | Undefined => []
          | _ => ["lastDeletedTask"]
          end.
Proof.
  intros Hw. unfold persist. rewrite saveState_item by exact Hw.
  unfold State_value, stringify. rewrite jsonOf_obj, jsonProps_app.
  eexists. split; [reflexivity|].
  cbn [keys]. rewrite map_app, jsonProps_PersistedState.
  destruct (lastDeletedTask state) as [| |t]; reflexivity.
Qed.

(** X16: what the persist effect writes for a well-formed engine state is
    read back by [loadState] as the persisted part of that state: the undo
    slot written along is not read back. *)
Lemma load_after_persist (ls : LocalStorage) (state : State) :
  readable ls = true ->
  accepts ls (stringify (State_value state)) = true ->
  well_formed state = true ->
  loadState now (persist (Some ls) state) = raw state.
Proof.
  intros Hr Hw Hwf.
  unfold well_formed in Hwf. apply andb_true_iff in Hwf. destruct Hwf as [Hfin Hdp].
  unfold persist. rewrite saveState_item by exact Hw.
  unfold State_value, stringify.
  rewrite jsonOf_obj, jsonProps_app, jsonProps_PersistedState, Hfin.
  unfold loadState, loadState_try, getItem. cbn [readable item]. rewrite Hr.
  cbn [bind text_is_empty parse isObject typeof_object negb andb try_catch].
  assert (Hget : forall k v rest,
             (k =? "lastDeletedTask") = false ->
             lookup k (rest ++ jsonProps (prop "lastDeletedTask" v)) = lookup k rest).
  { intros k v rest Hk. unfold lookup. rewrite fold_left_app.
    destruct v; simpl; rewrite ?Hk; reflexivity. }
  cbn [get]. rewrite !Hget by reflexivity.
  unfold lookup. cbn [fold_left fst snd String.eqb Ascii.eqb Bool.eqb].
  rewrite Hfin. cbn [coerceArray].
  rewrite coerceSettings_AppSettings_value.
  - reflexivity.
  - intros Hu. rewrite Hu in Hdp. discriminate.
Qed.

End GatewayFacts.

(** The two conditions of a well-formed state are needed: a version that
    is not finite comes back as the current version, settings without
    defaultProjectId come back with defaultProjectId null. *)
Example roundtrip_nan_version :
  loaded_version
    (loadState sample_now
       (saveState (Some empty_storage) (PersistedState_value nan_version_state)))
  = CURRENT_VERSION.
Proof. reflexivity. Qed.

Example roundtrip_partial_settings :
  defaultProjectId
    (loaded_settings
       (loadState sample_now
          (saveState (Some empty_storage)
                     (PersistedState_value partial_settings_state))))
  = Null.
Proof. reflexivity. Qed.

(** C3, evaluated on the code: a fresh session deletes its welcome task;
    the blob the persist effect then writes has a sixth property,
    lastDeletedTask, holding the deleted task. *)
Theorem persist_writes_undo_slot :
  let state :=
    reducer sample_now sample_uuid fresh_state (delete_task "welcome-task") in
  exists blob,
    persist (Some empty_storage) state = Some (storage_holding (JSONText blob))
    /\ keys blob =
       ["version"; "tasks"; "projects"; "settings"; "completionHistory";
        "lastDeletedTask"]
    /\ [get blob "lastDeletedTask"] = map Task_value (tasks fresh_state).
Proof.
  eexists. split; [reflexivity|]. split; reflexivity.
Qed.

(** C4: for a well-formed state (finite version, settings with all
    declared fields) and a storage that can be read and accepts the blob
    written, loadState right after saveState returns the state that was
    saved, and no other state. *)
Theorem load_after_save_roundtrip
        (now : string) (ls : LocalStorage) (state : PersistedState) :
  readable ls = true ->
  accepts ls (stringify (PersistedState_value state)) = true ->
  well_formed state = true ->
  let loaded := loadState now (saveState (Some ls) (PersistedState_value state)) in
  loaded = raw state
  /\ forall state', loaded = raw state' -> state' = state.
Proof.
  intros Hr Hw Hwf loaded.
  assert (Hloaded : loaded = raw state).
  { subst loaded.
    unfold well_formed in Hwf. apply andb_true_iff in Hwf. destruct Hwf as [Hfin Hdp].
    rewrite saveState_item by exact Hw.
    unfold PersistedState_value, stringify.
    rewrite jsonOf_obj, jsonProps_PersistedState, Hfin.
    unfold loadState, loadState_try, getItem. cbn [readable item]. rewrite Hr.
    cbn [bind text_is_empty parse isObject typeof_object negb andb try_catch].
    cbn [get]. unfold lookup. cbn [fold_left fst snd String.eqb Ascii.eqb Bool.eqb].
    rewrite Hfin. cbn [coerceArray].
    rewrite coerceSettings_AppSettings_value.
    - reflexivity.
    - intros Hu. rewrite Hu in Hdp. discriminate. }
  split; [exact Hloaded|].
  intros state' H. rewrite Hloaded in H. symmetry. apply raw_injective, H.
Qed.

Lemma load_after_save_roundtrip_witness :
  let loaded :=
    loadState sample_now
              (saveState (Some empty_storage)
                         (PersistedState_value (getInitialState sample_now))) in
  loaded = raw (getInitialState sample_now)
  /\ forall state', loaded = raw state' -> state' = getInitialState sample_now.
Proof.
  apply (load_after_save_roundtrip sample_now empty_storage (getInitialState sample_now));
    reflexivity.
Defined.

(** C5: when the key is missing, the stored text does not parse, or the
    parsed value is not a plain object, loadState returns (it does not
    throw) a state with a valid version whose collections are the default
    ones of getInitialState or are empty with every setting at its default. *)
Theorem loadState_tolerates_unusable_input (now : string) (ls : LocalStorage) :
  unusable (item ls) ->
  loadState now (Some ls) = raw (getInitialState now)
  \/ loadState now (Some ls) = emptyState.
Proof.
  intros Hbad. unfold loadState, loadState_try, getItem.
  destruct (readable ls); [|left; reflexivity].
  inversion Hbad as [Hitem|s Hitem|v Hshape Hitem]; cbn [bind try_catch].
  - left; reflexivity.
  - cbn [text_is_empty parse]. destruct (s =? ""); left; reflexivity.
  - cbn [text_is_empty parse bind].
    destruct v as [| |b|n|s|items|props]; try (left; reflexivity).
    + right; reflexivity.
    + exfalso. apply (Hshape props). reflexivity.
Qed.

Lemma loadState_tolerates_unusable_input_witness :
  (loadState sample_now (Some empty_storage) = raw (getInitialState sample_now)
   \/ loadState sample_now (Some empty_storage) = emptyState)
  /\ (loadState sample_now (Some (storage_holding (NotJSON "{not json")))
      = raw (getInitialState sample_now)
      \/ loadState sample_now (Some (storage_holding (NotJSON "{not json")))
         = emptyState)
  /\ (loadState sample_now (Some (storage_holding (JSONText (VArr []))))
      = raw (getInitialState sample_now)
      \/ loadState sample_now (Some (storage_holding (JSONText (VArr []))))
         = emptyState).
Proof.
  split; [|split].
  - apply (loadState_tolerates_unusable_input sample_now empty_storage).
    constructor.
  - apply (loadState_tolerates_unusable_input
             sample_now (storage_holding (NotJSON "{not json"))).
    constructor.
  - apply (loadState_tolerates_unusable_input
             sample_now (storage_holding (JSONText (VArr [])))).
    constructor. discriminate.
Defined.

(* ================================================================== *)
(** * Further properties of the analytics *)

Section StringOrder.

Lemma ascii_compare_lt_trans (a b c : ascii) :
  Ascii.compare a b = Lt -> Ascii.compare b c = Lt -> Ascii.compare a c = Lt.
Proof.
  unfold Ascii.compare. rewrite !N.compare_lt_iff. apply N.lt_trans.
Qed.

Lemma ascii_compare_refl (a : ascii) : Ascii.compare a a = Eq.
Proof. unfold Ascii.compare. apply N.compare_refl. Qed.

Lemma string_compare_lt_trans :
  forall s1 s2 s3 : string,
    String.compare s1 s2 = Lt -> String.compare s2 s3 = Lt ->
    String.compare s1 s3 = Lt.
Proof.
  induction s1 as [|a s1 IH]; intros [|b s2] [|c s3]; simpl;
    try discriminate; try reflexivity.
  destruct (Ascii.compare a b) eqn:Eab; try discriminate.
  - apply Ascii.compare_eq_iff in Eab. subst b.
    destruct (Ascii.compare a c); try discriminate; [apply IH|reflexivity].
  - intros _.
    destruct (Ascii.compare b c) eqn:Ebc; try discriminate.
    + apply Ascii.compare_eq_iff in Ebc. subst c. rewrite Eab. reflexivity.
    + intros _. rewrite (ascii_compare_lt_trans a b c Eab Ebc). reflexivity.
Qed.

Lemma string_compare_refl (s : string) : String.compare s s = Eq.
Proof.
  induction s as [|a s IH]; simpl; [reflexivity|].
  rewrite ascii_compare_refl. exact IH.
Qed.

Lemma ltb_trans (s1 s2 s3 : string) :
  String.ltb s1 s2 = true -> String.ltb s2 s3 = true -> String.ltb s1 s3 = true.
Proof.
  unfold String.ltb.
  destruct (String.compare s1 s2) eqn:E12; try discriminate.
  destruct (String.compare s2 s3) eqn:E23; try discriminate.
  rewrite (string_compare_lt_trans _ _ _ E12 E23). reflexivity.
Qed.

Lemma ltb_irrefl (s : string) : String.ltb s s = false.
Proof. unfold String.ltb. rewrite string_compare_refl. reflexivity. Qed.

(** Of two different strings one is before the other. *)
Lemma ltb_total (s1 s2 : string) :
  s1 <> s2 -> String.ltb s1 s2 = false -> String.ltb s2 s1 = true.
Proof.
  unfold String.ltb. intros Hne.
  rewrite (String.compare_antisym s2 s1).
  destruct (String.compare s1 s2) eqn:E; simpl; try discriminate; [|reflexivity].
  apply String.compare_eq_iff in E. contradiction.
Qed.

End StringOrder.

Section HistoryFacts.

(** The order the comparator of [computeCompletionHistory] sorts by. *)
Let key_lt (a b : string * nat) : Prop := String.ltb (fst a) (fst b) = true.

Lemma sort_insert_sorted (x : string * nat) (l : DateMap) :
  StronglySorted key_lt l ->
  ~ In (fst x) (map fst l) ->
  StronglySorted key_lt (sort_insert compareEntries x l).
Proof.
  induction l as [|y l IH]; simpl; intros Hs Hfresh.
  - repeat constructor.
  - apply StronglySorted_inv in Hs. destruct Hs as [Hl Hy].
    unfold compareEntries at 1.
    destruct (String.ltb (fst x) (fst y)) eqn:E; simpl.
    + constructor; [constructor; assumption|].
      constructor; [exact E|].
      rewrite Forall_forall in *. intros z Hz.
      unfold key_lt. eapply ltb_trans; [exact E|apply Hy, Hz].
    + assert (Hyx : key_lt y x).
      { apply ltb_total; [|exact E]. intros Heq. apply Hfresh. left. congruence. }
      constructor.
      * apply IH; [exact Hl|]. intros Hin. apply Hfresh. right. exact Hin.
      * rewrite Forall_forall in *. intros z Hz.
        apply (Permutation_in _ (Permutation_sym (sort_insert_perm compareEntries x l)))
          in Hz.
        destruct Hz as [<-|Hz]; [exact Hyx|apply Hy, Hz].
Qed.

Lemma sort_sorted (m : DateMap) :
  NoDup (map fst m) -> StronglySorted key_lt (sort compareEntries m).
Proof.
  induction m as [|x m IH]; simpl; intros Hnd; [constructor|].
  inversion Hnd as [|? ? Hfresh Hnd']; subst.
  apply sort_insert_sorted; [apply IH, Hnd'|].
  intros Hin. apply Hfresh.
  eapply Permutation_in; [|exact Hin].
  apply Permutation_map, Permutation_sym, sort_perm.
Qed.

Lemma StronglySorted_map {A B} (R : A -> A -> Prop) (Q : B -> B -> Prop)
      (f : A -> B) (l : list A) :
  (forall a b, R a b -> Q (f a) (f b)) ->
  StronglySorted R l -> StronglySorted Q (map f l).
Proof.
  intros HRQ. induction 1 as [|a l Hs IH Hall]; simpl; constructor; [exact IH|].
  rewrite Forall_forall in *. intros b Hb.
  apply in_map_iff in Hb. destruct Hb as (a' & <- & Ha'). apply HRQ, Hall, Ha'.
Qed.

(** An entry is in the history exactly when its count is the number of
    tasks completed on its day and that number is not zero. *)
Lemma In_computeCompletionHistory (e : CompletionEntry) (ts : list Task) :
  In e (computeCompletionHistory ts)
  <-> count e = List.length (filter (completedOn (date e)) ts) /\ 1 <= count e.
Proof.
  pose proof (find_computeCompletionHistory (date e) ts) as Hfind.
  split.
  - intros Hin. unfold computeCompletionHistory in Hin.
    apply in_map_iff in Hin. destruct Hin as ([k v] & <- & Hin). simpl in *.
    apply (Permutation_in _ (Permutation_sym (sort_perm compareEntries _))) in Hin.
    apply map_get_In in Hin; [|apply fold_addTask_NoDup; constructor].
    rewrite map_get_fold_addTask in Hin. simpl in Hin.
    destruct (List.length (filter (completedOn k) ts)); [discriminate|].
    injection Hin as <-. lia.
  - intros [Hcount Hpos]. rewrite <- Hcount in Hfind.
    destruct (count e) as [|n] eqn:E; [lia|].
    apply find_some in Hfind. destruct Hfind as [Hin _].
    destruct e as [d c]. simpl in *. subst c. exact Hin.
Qed.

Lemma filter_length_perm {A} (p : A -> bool) (l l' : list A) :
  Permutation l l' -> List.length (filter p l) = List.length (filter p l').
Proof.
  induction 1 as [|x l l' _ IH|x y l|l l' l'' _ IH1 _ IH2]; simpl.
  - reflexivity.
  - destruct (p x); simpl; congruence.
  - destruct (p x), (p y); reflexivity.
  - congruence.
Qed.

(** Two lists in strictly ascending order with the same elements are the
    same list. *)
Lemma StronglySorted_unique {A} (R : A -> A -> Prop) (l l' : list A) :
  (forall a, ~ R a a) ->
  (forall a b c, R a b -> R b c -> R a c) ->
  StronglySorted R l -> StronglySorted R l' ->
  (forall x, In x l <-> In x l') ->
  l = l'.
Proof.
  intros Hirr Htr. revert l'.
  induction l as [|a l IH]; intros [|a' l'] Hs Hs' Hin.
  - reflexivity.
  - exfalso. apply (Hin a'). left; reflexivity.
  - exfalso. apply (Hin a). left; reflexivity.
  - apply StronglySorted_inv in Hs. destruct Hs as [Hs Ha].
    apply StronglySorted_inv in Hs'. destruct Hs' as [Hs' Ha'].
    rewrite Forall_forall in Ha, Ha'.
    assert (Heq : a = a').
    { destruct (proj1 (Hin a) (or_introl eq_refl)) as [->|H1]; [reflexivity|].
      destruct (proj2 (Hin a') (or_introl eq_refl)) as [->|H2]; [reflexivity|].
      exfalso. apply (Hirr a). apply (Htr a a' a); [apply Ha, H2|apply Ha', H1]. }
    subst a'. f_equal. apply IH; [exact Hs|exact Hs'|].
    intros x. split; intros Hx.
    + destruct (proj1 (Hin x) (or_intror Hx)) as [<-|H]; [|exact H].
      exfalso. apply (Hirr a), Ha, Hx.
    + destruct (proj2 (Hin x) (or_intror Hx)) as [<-|H]; [|exact H].
      exfalso. apply (Hirr a), Ha', Hx.
Qed.

Lemma computeCompletionHistory_sorted (ts : list Task) :
  StronglySorted (fun a b => String.ltb (date a) (date b) = true)
                 (computeCompletionHistory ts).
Proof.
  unfold computeCompletionHistory.
  apply (StronglySorted_map key_lt); [intros a b H; exact H|].
  apply sort_sorted, fold_addTask_NoDup. constructor.
Qed.

(** The dates of the history are the days some task was completed on. *)
Lemma In_history_dates (ts : list Task) (key : string) :
  In key (map date (computeCompletionHistory ts))
  <-> exists t, In t ts /\ dayOf (completedAt t) = Some key.
Proof.
  split.
  - intros Hin. apply in_map_iff in Hin. destruct Hin as (e & <- & He).
    apply In_computeCompletionHistory in He. destruct He as [Hc Hpos].
    destruct (filter (completedOn (date e)) ts) as [|t rest] eqn:E;
      [simpl in Hc; lia|].
    assert (Ht : In t (filter (completedOn (date e)) ts))
      by (rewrite E; left; reflexivity).
    apply filter_In in Ht. destruct Ht as [Hin Hon].
    exists t. split; [exact Hin|]. apply completedOn_dayOf, Hon.
  - intros (t & Hin & Hday).
    apply completedOn_dayOf in Hday.
    assert (Ht : In t (filter (completedOn key) ts)) by (apply filter_In; auto).
    destruct (List.length (filter (completedOn key) ts)) as [|n] eqn:E.
    + apply length_zero_iff_nil in E. rewrite E in Ht. destruct Ht.
    + apply in_map_iff. exists (mkEntry key (S n)). split; [reflexivity|].
      apply In_computeCompletionHistory. simpl. split; [symmetry; exact E|lia].
Qed.

End HistoryFacts.

Section HistoryTotals.

Lemma total_count_map_set (k : string) (m : DateMap) :
  total_count (map_set k (match map_get k m with Some n => n | None => 0 end + 1) m)
  = total_count m + 1.
Proof.
  unfold total_count.
  induction m as [|[k0 v0] m IH]; simpl; [reflexivity|].
  destruct (k =? k0); simpl; [lia|]. rewrite IH. lia.
Qed.

Lemma total_count_fold_addTask (ts : list Task) :
  forall m,
    total_count (fold_left addTask ts m)
    = total_count m + List.length (filter (fun t => truthy (completedAt t)) ts).
Proof.
  induction ts as [|t ts IH]; intros m; simpl; [lia|].
  rewrite IH. unfold addTask.
  destruct (completedAt t) as [| |c]; simpl; try lia.
  destruct (truthy_string c); simpl; [|lia].
  rewrite total_count_map_set. lia.
Qed.

Lemma list_sum_perm (l l' : list nat) :
  Permutation l l' -> list_sum l = list_sum l'.
Proof.
  induction 1; simpl; lia.
Qed.

End HistoryTotals.

(** X1: the completion history is in strictly ascending order of its day
    keys: every entry's date is before the date of every later entry (so no
    date occurs twice). *)
Theorem completionHistory_ascending (ts : list Task) :
  StronglySorted (fun a b => String.ltb (date a) (date b) = true)
                 (computeCompletionHistory ts).
Proof.
  unfold computeCompletionHistory.
  apply (StronglySorted_map
           (fun a b : string * nat => String.ltb (fst a) (fst b) = true)).
  - intros a b H. exact H.
  - apply sort_sorted, fold_addTask_NoDup. constructor.
Qed.

(** X2: every entry of the completion history counts the tasks completed on
    its day and counts at least one; a day is among the dates of the history
    exactly when some task's completedAt falls on it. *)
Theorem completionHistory_entries (ts : list Task) :
  (forall e, In e (computeCompletionHistory ts) ->
             count e = List.length (filter (completedOn (date e)) ts)
             /\ 1 <= count e)
  /\ (forall key, In key (map date (computeCompletionHistory ts))
                  <-> exists t, In t ts /\ dayOf (completedAt t) = Some key).
Proof.
  split.
  - intros e He. apply In_computeCompletionHistory, He.
  - apply In_history_dates.
Qed.

(** X3: the counts of the completion history add up to the number of tasks
    that have a completedAt stamp. *)
Theorem completionHistory_total (ts : list Task) :
  list_sum (map count (computeCompletionHistory ts))
  = List.length (filter (fun t => truthy (completedAt t)) ts).
Proof.
  unfold computeCompletionHistory. rewrite map_map.
  change (fun x : string * nat => count (mkEntry (fst x) (snd x))) with (@snd string nat).
  rewrite <- (list_sum_perm _ _ (Permutation_map snd
                (sort_perm compareEntries (fold_left addTask ts [])))).
  apply (total_count_fold_addTask ts []).
Qed.

(** X4: the completion history does not depend on the order of the tasks. *)
Theorem completionHistory_order_independent (ts ts' : list Task) :
  Permutation ts ts' ->
  computeCompletionHistory ts = computeCompletionHistory ts'.
Proof.
  intros Hperm.
  apply (StronglySorted_unique
           (fun a b => String.ltb (date a) (date b) = true)).
  - intros a. rewrite ltb_irrefl. discriminate.
  - intros a b c. apply ltb_trans.
  - apply computeCompletionHistory_sorted.
  - apply computeCompletionHistory_sorted.
  - intros e. rewrite !In_computeCompletionHistory.
    rewrite (filter_length_perm (completedOn (date e)) ts ts' Hperm). reflexivity.
Qed.

Lemma completionHistory_order_independent_witness :
  computeCompletionHistory [done_today; done_yesterday]
  = computeCompletionHistory [done_yesterday; done_today].
Proof.
  apply (completionHistory_order_independent
           [done_today; done_yesterday] [done_yesterday; done_today]).
  apply perm_swap.
Defined.

(** X5: every task is counted once: completedTasks, activeTasks and the
    archived tasks add up to totalTasks. *)
Theorem analytics_counts_partition
        (zone : TimeZone) (current : Z) (ts : list Task) (history : list CompletionEntry) :
  let summary := computeAnalytics zone current ts history in
  completedTasks summary + activeTasks summary
  + List.length (filter (fun t => status_eqb (status t) archived) ts)
  = totalTasks summary.
Proof.
  unfold computeAnalytics. cbn [completedTasks activeTasks totalTasks].
  induction ts as [|t ts IH]; simpl; [reflexivity|].
  destruct (status t); simpl; lia.
Qed.

Section DerivedHistory.

Variables (zone : TimeZone) (current : Z) (ts : list Task).

Lemma hasCompletion_derived (key : string) :
  hasCompletion ts (computeCompletionHistory ts) key = hasCompletion ts [] key.
Proof.
  unfold hasCompletion. simpl.
  destruct (existsb (completedOn key) ts) eqn:E; [apply orb_true_r|].
  rewrite orb_false_r.
  destruct (existsb (fun d => d =? key) (map date (computeCompletionHistory ts)))
    eqn:H; [|reflexivity].
  apply existsb_exists in H. destruct H as (d & Hin & Heq).
  apply String.eqb_eq in Heq. subst d.
  apply In_history_dates in Hin.
  destruct Hin as (t & Hin & Hday).
  apply completedOn_dayOf in Hday.
  assert (existsb (completedOn key) ts = true)
    by (apply existsb_exists; exists t; auto).
  congruence.
Qed.

End DerivedHistory.

Section StreakFacts.

Variable dayKey : nat -> string.

(** The streak loop only looks at its tasks and history through
    [hasCompletion]. *)
Lemma streakLoop_ext (ts ts' : list Task) (h h' : list CompletionEntry) :
  (forall key, hasCompletion ts h key = hasCompletion ts' h' key) ->
  forall remaining offset acc,
    streakLoop dayKey ts h remaining offset acc
    = streakLoop dayKey ts' h' remaining offset acc.
Proof.
  intros Hsame. induction remaining as [|r IH]; intros offset acc; simpl;
    [reflexivity|].
  rewrite Hsame. destruct (hasCompletion ts' h' (dayKey offset)); [apply IH|reflexivity].
Qed.

Lemma existsb_perm {A} (p : A -> bool) (l l' : list A) :
  Permutation l l' -> existsb p l = existsb p l'.
Proof.
  induction 1 as [|x l l' _ IH|x y l|l l' l'' _ IH1 _ IH2]; simpl.
  - reflexivity.
  - rewrite IH. reflexivity.
  - destruct (p x), (p y); reflexivity.
  - congruence.
Qed.

End StreakFacts.

(** X6: when the history handed to computeAnalytics is the one computed from
    the same tasks, it adds nothing: the summary is the one computed with
    an empty history, from the tasks alone. *)
Theorem analytics_derived_history_redundant (zone : TimeZone) (current : Z) (ts : list Task) :
  computeAnalytics zone current ts (computeCompletionHistory ts)
  = computeAnalytics zone current ts [].
Proof.
  unfold computeAnalytics.
  rewrite (streakLoop_ext _ ts ts (computeCompletionHistory ts) [] (hasCompletion_derived ts)).
  rewrite find_computeCompletionHistory.
  cbn [find].
  destruct (List.length (filter (completedOn (toDateKey (startOfDay zone current))) ts));
      reflexivity.
Qed.

(** X7: the summary does not depend on the order of the tasks. *)
Theorem analytics_order_independent
        (zone : TimeZone) (current : Z) (ts ts' : list Task) (history : list CompletionEntry) :
  Permutation ts ts' ->
  computeAnalytics zone current ts history
  = computeAnalytics zone current ts' history.
Proof.
  intros Hperm. unfold computeAnalytics.
  rewrite (Permutation_length Hperm).
  rewrite (filter_length_perm (fun t => status_eqb (status t) done) ts ts' Hperm).
  rewrite (filter_length_perm
             (fun t => status_eqb (status t) todo || status_eqb (status t) in_progress)
             ts ts' Hperm).
  rewrite (filter_length_perm
             (completedOn (toDateKey (startOfDay zone current))) ts ts' Hperm).
  rewrite (streakLoop_ext _ ts ts' history history).
  - reflexivity.
  - intros key. unfold hasCompletion.
    rewrite (existsb_perm (completedOn key) ts ts' Hperm). reflexivity.
Qed.

Lemma analytics_order_independent_witness :
  computeAnalytics (fixedZone 0) sample_current [done_today; done_yesterday] []
  = computeAnalytics (fixedZone 0) sample_current [done_yesterday; done_today] [].
Proof.
  apply (analytics_order_independent
           (fixedZone 0) sample_current
           [done_today; done_yesterday] [done_yesterday; done_today] []).
  apply perm_swap.
Defined.

(* ================================================================== *)
(** * Further properties of the reducer *)

Section ReducerMore.

Variables now uuid : string.

Lemma computeCompletionHistory_perm (ts ts' : list Task) :
  Permutation ts ts' ->
  computeCompletionHistory ts = computeCompletionHistory ts'.
Proof.
  intros Hperm.
  apply (StronglySorted_unique
           (fun a b => String.ltb (date a) (date b) = true)).
  - intros a. rewrite ltb_irrefl. discriminate.
  - intros a b c. apply ltb_trans.
  - apply computeCompletionHistory_sorted.
  - apply computeCompletionHistory_sorted.
  - intros e. rewrite !In_computeCompletionHistory.
    rewrite (filter_length_perm (completedOn (date e)) ts ts' Hperm). reflexivity.
Qed.


Lemma map_id_patched (id_ : string) (patch : TaskPatch) (ts : list Task) :
  patch_id patch = None ->
  map id (map (fun task => if id task =? id_ then patchTask now task patch else task) ts)
  = map id ts.
Proof.
  intros Hp. rewrite map_map. apply map_ext. intros t.
  destruct (id t =? id_); [|reflexivity].
  unfold patchTask; simpl. rewrite Hp. reflexivity.
Qed.

Lemma filter_ids_NoDup (p : Task -> bool) (ts : list Task) :
  NoDup (map id ts) -> NoDup (map id (filter p ts)).
Proof.
  induction ts as [|t ts IH]; simpl; intros Hnd; [constructor|].
  inversion Hnd as [|? ? Hfresh Hnd']; subst.
  destruct (p t); simpl; [|apply IH, Hnd'].
  constructor; [|apply IH, Hnd'].
  intros Hin. apply Hfresh.
  apply in_map_iff in Hin. destruct Hin as (t' & Heq & Hin).
  apply filter_In in Hin. apply in_map_iff. exists t'. tauto.
Qed.

Lemma filter_out_id (id_ : string) (ts : list Task) :
  ~ In id_ (map id (filter (fun t => negb (id t =? id_)) ts)).
Proof.
  intros Hin. apply in_map_iff in Hin. destruct Hin as (t & Heq & Hin).
  apply filter_In in Hin. destruct Hin as [_ Hne].
  rewrite <- Heq, String.eqb_refl in Hne. discriminate.
Qed.

(** With distinct ids, taking the task with an id out of the list and
    putting it in front gives the same tasks in another order. *)
Lemma find_filter_perm (id_ : string) (ts : list Task) (t : Task) :
  NoDup (map id ts) ->
  find (fun t => id t =? id_) ts = Some t ->
  Permutation (t :: filter (fun t => negb (id t =? id_)) ts) ts.
Proof.
  induction ts as [|a ts IH]; simpl; intros Hnd Hfind; [discriminate|].
  inversion Hnd as [|? ? Hfresh Hnd']; subst.
  destruct (String.eqb_spec (id a) id_) as [Heq|Hne]; simpl.
  - injection Hfind as <-. apply perm_skip.
    rewrite filter_unmatched; [reflexivity|].
    intros t' Hin Hid. apply Hfresh. rewrite Heq, <- Hid. apply in_map, Hin.
  - rewrite perm_swap. apply perm_skip, IH; assumption.
Qed.

End ReducerMore.

(** X8: the reducer keeps the completion history in step with the tasks:
    create-task, update-task, delete-task and bulk-update-status leave a
    state whose history is the one computed from its tasks, whatever it was
    before, and every action keeps a history that was in step so, hydrate
    provided its payload is. *)
Theorem reducer_keeps_history_in_sync
        (now uuid : string) (state : State) (action : Action) :
  (match action with
   | create_task _ | update_task _ _ | delete_task _ | bulk_update_status _ _ =>
       in_sync (reducer now uuid state action)
   | _ => True
   end)
  /\ (in_sync state ->
      (forall payload, action = hydrate payload -> in_sync payload) ->
      in_sync (reducer now uuid state action)).
Proof.
  split.
  - destruct action; try exact I; reflexivity.
  - intros Hsync Hpayload.
    destruct action as [payload| | | | | | |]; try reflexivity; try exact Hsync.
    + apply (Hpayload payload). reflexivity.
    + cbn [reducer]. destruct (lastDeletedTask state); [exact Hsync|exact Hsync|reflexivity].
Qed.



(** X10: with distinct task ids, deleting a task and restoring it gives the
    deleted task back, unchanged, at the front of the list, followed by the
    other tasks in their order; the tasks are the ones there were, the
    completion history is the one of those tasks, and the undo slot is
    empty again. *)
Theorem restore_after_delete
        (now uuid now' uuid' : string) (state : State) (t : Task) :
  NoDup (map id (tasks state)) ->
  In t (tasks state) ->
  let deleted := reducer now uuid state (delete_task (id t)) in
  let restored := reducer now' uuid' deleted restore_last_deleted in
  lastDeletedTask deleted = Val t
  /\ tasks restored = t :: filter (fun t' => negb (id t' =? id t)) (tasks state)
  /\ Permutation (tasks restored) (tasks state)
  /\ completionHistory restored = computeCompletionHistory (tasks state)
  /\ lastDeletedTask restored = Null.
Proof.
  intros Hnd Hin deleted restored.
  assert (Hfind : find (fun t' => id t' =? id t) (tasks state) = Some t).
  { clear deleted restored. revert Hnd Hin.
    induction (tasks state) as [|a ts IH]; simpl; intros Hnd Hin; [destruct Hin|].
    destruct Hin as [Heq|Hin].
    - subst a. rewrite String.eqb_refl. reflexivity.
    - inversion Hnd as [|? ? Hfresh Hnd']; subst.
      destruct (String.eqb_spec (id a) (id t)) as [Heq|_]; [|apply IH; assumption].
      exfalso. apply Hfresh. rewrite Heq. apply in_map, Hin. }
  assert (Hslot : lastDeletedTask deleted = Val t).
  { subst deleted. cbn [reducer lastDeletedTask]. rewrite Hfind. reflexivity. }
  assert (Htasks : tasks restored
                   = t :: filter (fun t' => negb (id t' =? id t)) (tasks state)).
  { subst restored. cbn [reducer]. rewrite Hslot. reflexivity. }
  assert (Hperm : Permutation (tasks restored) (tasks state)).
  { rewrite Htasks. apply find_filter_perm; assumption. }
  repeat split; try assumption.
  - transitivity (computeCompletionHistory (tasks restored)).
    + subst restored. cbn [reducer]. rewrite Hslot. reflexivity.
    + apply computeCompletionHistory_perm, Hperm.
  - subst restored. cbn [reducer]. rewrite Hslot. reflexivity.
Qed.

Lemma restore_after_delete_witness :
  let deleted := reducer sample_now sample_uuid one_done_state (delete_task "t1") in
  let restored := reducer sample_now sample_uuid deleted restore_last_deleted in
  lastDeletedTask deleted = Val done_yesterday
  /\ tasks restored
     = done_yesterday :: filter (fun t' => negb (id t' =? "t1")) (tasks one_done_state)
  /\ Permutation (tasks restored) (tasks one_done_state)
  /\ completionHistory restored = computeCompletionHistory (tasks one_done_state)
  /\ lastDeletedTask restored = Null.
Proof.
  apply (restore_after_delete sample_now sample_uuid sample_now sample_uuid
                              one_done_state done_yesterday).
  - repeat constructor. intros [].
  - left. reflexivity.
Defined.

(** X11: restore-last-deleted a second time in a row changes nothing. *)
Theorem restore_twice (now uuid now' uuid' : string) (state : State) :
  reducer now' uuid' (reducer now uuid state restore_last_deleted) restore_last_deleted
  = reducer now uuid state restore_last_deleted.
Proof.
  cbn [reducer].
  destruct (lastDeletedTask state) as [| |t] eqn:E; cbn [lastDeletedTask]; rewrite ?E;
    reflexivity.
Qed.

Lemma filter_map_length {A B} (p : B -> bool) (f : A -> B) (l : list A) :
  List.length (filter p (map f l)) = List.length (filter (fun a => p (f a)) l).
Proof.
  induction l as [|a l IH]; simpl; [reflexivity|].
  destruct (p (f a)); simpl; rewrite IH; reflexivity.
Qed.

(** Counting with a disjunction: those that satisfy [p], plus those that
    satisfy [q] and not [p]. *)
Lemma filter_or_length {A} (p q : A -> bool) (l : list A) :
  List.length (filter (fun a => p a || q a) l)
  = List.length (filter p l)
    + List.length (filter (fun a => q a && negb (p a)) l).
Proof.
  induction l as [|a l IH]; simpl; [reflexivity|].
  destruct (p a), (q a); simpl; rewrite IH; lia.
Qed.

(** X12: after bulk-update-status to done, the tasks counted as completed
    are those that were done or selected: completedTasks grows by the number
    of selected tasks that were not done, and totalTasks stays. *)
Theorem bulk_done_completedTasks
        (now uuid : string) (zone : TimeZone) (current : Z) (state : State) (ids : list string) :
  let state' := reducer now uuid state (bulk_update_status ids done) in
  let before :=
    computeAnalytics zone current (tasks state) (completionHistory state) in
  let after :=
    computeAnalytics zone current (tasks state') (completionHistory state') in
  totalTasks after = totalTasks before
  /\ completedTasks after
     = completedTasks before
       + List.length (filter (fun t => has ids (id t)
                                       && negb (status_eqb (status t) done))
                             (tasks state)).
Proof.
  intros state' before after. subst before after state'.
  unfold computeAnalytics. cbn [totalTasks completedTasks].
  cbn [reducer persisted with_tasks tasks].
  split; [apply length_map|].
  rewrite filter_map_length.
  rewrite <- (filter_or_length (fun t => status_eqb (status t) done)
                               (fun t => has ids (id t))).
  f_equal. apply filter_ext. intros t.
  destruct (has ids (id t)); cbn [negb status status_eqb];
    [rewrite orb_true_r|rewrite orb_false_r]; reflexivity.
Qed.

(** X13: handleComplete keeps, for every task the state holds,
    completedAt != null exactly when the status is done. *)
Theorem handleComplete_keeps_invariant
        (stamp now uuid : string) (state : State) (task : Task) :
  state_ok state = true ->
  state_ok (handleComplete stamp now uuid state task) = true.
Proof.
  unfold state_ok, handleComplete. rewrite !andb_true_iff. intros [Hts Hslot].
  cbn [reducer persisted with_tasks tasks lastDeletedTask].
  split; [|exact Hslot].
  apply forallb_map_ok; [|exact Hts].
  intros t Ht. destruct (id t =? id task); [|exact Ht].
  apply patchTask_ok; [apply completePatch_ok|exact Ht].
Qed.

Lemma handleComplete_keeps_invariant_witness :
  state_ok (handleComplete sample_now sample_now sample_uuid
                           one_done_state done_yesterday) = true.
Proof.
  apply (handleComplete_keeps_invariant sample_now sample_now sample_uuid
                                        one_done_state done_yesterday).
  reflexivity.
Defined.

(** X14: the ids of the tasks a state holds (those of the list and the one
    of the undo slot) stay distinct under every action, provided a created
    task gets an id that is not held, an update-task patch does not set the
    id, and a hydrated payload has distinct ids. *)
Theorem reducer_keeps_ids_distinct
        (now uuid : string) (state : State) (action : Action) :
  NoDup (held_ids state) ->
  keeps_ids uuid state action ->
  NoDup (held_ids (reducer now uuid state action)).
Proof.
  unfold held_ids. intros Hnd Hok.
  destruct action as [payload|input|id_ patch|id_|ids_ status_| |payload|name color];
    cbn [reducer persisted with_tasks tasks lastDeletedTask keeps_ids] in *.
  - rewrite app_nil_r. exact Hok.
  - cbn [map app]. constructor; assumption.
  - rewrite map_id_patched by exact Hok. exact Hnd.
  - apply NoDup_app_remove_r in Hnd.
    destruct (find (fun t => id t =? id_) (tasks state)) as [t|] eqn:E.
    + apply find_some in E. destruct E as [_ Heq]. apply String.eqb_eq in Heq.
      apply NoDup_app; [apply filter_ids_NoDup, Hnd| |].
      * repeat constructor. intros [].
      * intros x Hx [<-|[]]. rewrite Heq in Hx. revert Hx. apply filter_out_id.
    + rewrite app_nil_r. apply filter_ids_NoDup, Hnd.
  - replace (map id (map _ (tasks state))) with (map id (tasks state)); [exact Hnd|].
    rewrite map_map. apply map_ext. intros t.
    destruct (negb (has ids_ (id t))); reflexivity.
  - destruct (lastDeletedTask state) as [| |d] eqn:E;
      cbn [persisted tasks lastDeletedTask]; rewrite ?E; try exact Hnd.
    cbn [map app]. rewrite app_nil_r.
    apply (Permutation_NoDup (l := map id (tasks state) ++ [id d])); [|exact Hnd].
    rewrite Permutation_app_comm. reflexivity.
  - exact Hnd.
  - exact Hnd.
Qed.

Lemma reducer_keeps_ids_distinct_witness :
  NoDup (held_ids (reducer sample_now sample_uuid one_done_state
                           (create_task blank_input))).
Proof.
  apply (reducer_keeps_ids_distinct sample_now sample_uuid one_done_state
                                    (create_task blank_input)).
  - repeat constructor. intros [].
  - simpl. intros [H|[]]. discriminate H.
Defined.

(* ================================================================== *)
(** * Further properties of the storage gateway *)

Lemma load_after_persist_witness :
  loadState sample_now (persist (Some empty_storage) just_deleted_state)
  = raw just_deleted_state.
Proof.
  apply (load_after_persist sample_now empty_storage just_deleted_state);
    reflexivity.
Defined.

(** X17: the settings coerceSettings returns are settings it accepts as
    they are: written out and coerced again they come back unchanged. *)
Theorem coerceSettings_stable (v : value) :
  coerceSettings (AppSettings_value (coerceSettings v)) = coerceSettings v.
Proof.
  apply coerceSettings_AppSettings_value.
  unfold coerceSettings.
  destruct (negb (isObject v)); cbn [defaultProjectId]; [discriminate|].
  destruct (get v "defaultProjectId"); discriminate.
Qed.

(** X18: of two saveState calls in a row, the last write that the storage
    accepts wins.  When the storage accepts the second text, it is left as
    the second call alone would leave it; when it does not (the text is
    over the quota), the failure is swallowed and the storage stays as the
    first call left it.  Without a window nothing is written. *)
Theorem saveState_last_write_wins
        (window : option LocalStorage) (first second : value) :
  saveState (saveState window first) second
  = match window with
    | None => None
    | Some ls =>
        if accepts ls (stringify second)
        then saveState window second
        else saveState window first
    end.
Proof.
  destruct window as [ls|]; [|reflexivity].
  unfold saveState, setItem. cbn [bind].
  destruct (accepts ls (stringify second)) eqn:Hsecond;
    destruct (accepts ls (stringify first)) eqn:Hfirst;
    cbn [try_catch accepts]; rewrite ?Hsecond; reflexivity.
Qed.

(** A first blob that fits followed by one over the quota: the storage
    keeps the first. *)
Example saveState_over_quota :
  saveState (saveState (Some (small_storage 1 (JSONText VNull))) (VArr [VNull]))
            (VArr [VNull; VNull])
  = Some (small_storage 1 (JSONText (VArr [VNull]))).
Proof. reflexivity. Qed.

(* ================================================================== *)
(** * Properties of the selection and of the toast store *)

Section SelectionFacts.

Lemma includes_filter_other (prev : list string) (x y : string) :
  includes (filter (fun z => negb (z =? x)) prev) y
  = includes prev y && negb (y =? x).
Proof.
  unfold includes. induction prev as [|z prev IH]; simpl; [reflexivity|].
  destruct (String.eqb_spec z x) as [->|Hzx]; simpl.
  - rewrite IH. destruct (String.eqb_spec x y) as [->|Hxy]; simpl.
    + rewrite String.eqb_refl, !andb_false_r. reflexivity.
    + reflexivity.
  - rewrite IH. destruct (String.eqb_spec z y) as [->|Hzy]; simpl; [|reflexivity].
    destruct (String.eqb_spec y x); [contradiction|reflexivity].
Qed.

Lemma includes_app (l l' : list string) (y : string) :
  includes (l ++ l') y = includes l y || includes l' y.
Proof. unfold includes. apply existsb_app. Qed.

Lemma includes_In (l : list string) (y : string) :
  includes l y = true <-> In y l.
Proof.
  unfold includes. rewrite existsb_exists. split.
  - intros (z & Hin & Heq). apply String.eqb_eq in Heq. subst. exact Hin.
  - intros Hin. exists y. split; [exact Hin|apply String.eqb_refl].
Qed.

End SelectionFacts.

(** X19: toggleSelection flips whether the id is selected and leaves every
    other id as it was; a selection without repeated ids stays so. *)
Theorem toggleSelection_flips (prev : list string) (x : string) :
  includes (toggleSelection prev x) x = negb (includes prev x)
  /\ (forall y, y <> x -> includes (toggleSelection prev x) y = includes prev y)
  /\ (NoDup prev -> NoDup (toggleSelection prev x)).
Proof.
  unfold toggleSelection. destruct (includes prev x) eqn:E.
  - repeat split.
    + rewrite includes_filter_other, String.eqb_refl, andb_false_r. reflexivity.
    + intros y Hy. rewrite includes_filter_other.
      destruct (String.eqb_spec y x); [contradiction|apply andb_true_r].
    + apply NoDup_filter.
  - repeat split.
    + rewrite includes_app, E. simpl. rewrite String.eqb_refl. reflexivity.
    + intros y Hy. rewrite includes_app. simpl.
      destruct (String.eqb_spec x y); [congruence|]. rewrite !orb_false_r. reflexivity.
    + intros Hnd. apply NoDup_app; [exact Hnd|repeat constructor; intros []|].
      intros z Hz [<-|[]]. apply includes_In in Hz. congruence.
Qed.

(** X20: selecting an id that was not selected and toggling it again gives
    the selection back as it was. *)
Theorem toggleSelection_twice (prev : list string) (x : string) :
  includes prev x = false ->
  toggleSelection (toggleSelection prev x) x = prev.
Proof.
  intros Hno. unfold toggleSelection at 2. rewrite Hno.
  unfold toggleSelection. rewrite includes_app. simpl.
  rewrite String.eqb_refl, orb_true_r.
  rewrite filter_app. simpl. rewrite String.eqb_refl. simpl. rewrite app_nil_r.
  clear -Hno. induction prev as [|z prev IH]; simpl in *; [reflexivity|].
  apply orb_false_iff in Hno. destruct Hno as [Hz Hprev].
  rewrite Hz. simpl. f_equal. apply IH, Hprev.
Qed.

Lemma toggleSelection_twice_witness :
  toggleSelection (toggleSelection ["t1"] "t2") "t2" = ["t1"].
Proof.
  apply (toggleSelection_twice ["t1"] "t2"). reflexivity.
Defined.

Section ToastFacts.

Lemma toasts_ok_step (store : Toasts.Store) (e : Toasts.Event) :
  toasts_ok store -> toasts_ok (Toasts.step store e).
Proof.
  intros [Hnd Hall]. destruct e as [toast|id]; unfold toasts_ok; simpl.
  - split.
    + rewrite map_app. simpl.
      apply NoDup_app; [exact Hnd|repeat constructor; intros []|].
      intros n Hn [<-|[]].
      apply in_map_iff in Hn. destruct Hn as (t & Heq & Hin).
      rewrite Forall_forall in Hall. specialize (Hall t Hin). lia.
    + apply Forall_app. split.
      * eapply Forall_impl; [|exact Hall]. simpl. intros t Ht. lia.
      * constructor; [simpl; lia|constructor].
  - split.
    + clear Hall. induction (Toasts.toasts store) as [|t ts IH]; simpl; [constructor|].
      inversion Hnd as [|? ? Hfresh Hnd']; subst.
      destruct (negb (Toasts.toast_id t =? id)%nat); simpl; [|apply IH, Hnd'].
      constructor; [|apply IH, Hnd'].
      intros Hin. apply Hfresh. apply in_map_iff in Hin.
      destruct Hin as (t' & Heq & Hin). apply filter_In in Hin.
      apply in_map_iff. exists t'. tauto.
    + rewrite Forall_forall in *. intros t Ht. apply filter_In in Ht. apply Hall, Ht.
Qed.

Lemma toasts_ok_run (events : list Toasts.Event) :
  forall store, toasts_ok store -> toasts_ok (Toasts.run store events).
Proof.
  unfold Toasts.run.
  induction events as [|e events IH]; intros store Hok; simpl; [exact Hok|].
  apply IH, toasts_ok_step, Hok.
Qed.

Lemma toasts_ok_initial : toasts_ok Toasts.initial.
Proof. split; constructor. Qed.

End ToastFacts.

(** X21: whatever toasts are pushed and whichever timers have fired, the
    live toasts have distinct ids, each one handed out by the counter. *)
Theorem toast_ids_distinct (events : list Toasts.Event) :
  let store := Toasts.run Toasts.initial events in
  NoDup (map Toasts.toast_id (Toasts.toasts store))
  /\ Forall (fun t => 1 <= Toasts.toast_id t <= Toasts.toastId store)
            (Toasts.toasts store).
Proof.
  intros store.
  destruct (toasts_ok_run events Toasts.initial toasts_ok_initial) as [Hnd Hall].
  split; assumption.
Qed.

(** X22: the timer of a push removes the toast that push added and no
    other: after it fires the toasts are those there were before the push. *)
Theorem toast_timer_removes_its_toast
        (events : list Toasts.Event) (toast : Toasts.ToastInput) :
  let store := Toasts.run Toasts.initial events in
  let pushed := Toasts.push store toast in
  Toasts.toasts (Toasts.expire (fst pushed) (snd pushed)) = Toasts.toasts store.
Proof.
  intros store pushed.
  destruct (toasts_ok_run events _ toasts_ok_initial) as [_ Hall].
  fold store in Hall. subst pushed. simpl.
  rewrite filter_app. simpl. rewrite Nat.eqb_refl. simpl. rewrite app_nil_r.
  induction (Toasts.toasts store) as [|t ts IH]; simpl; [reflexivity|].
  inversion Hall as [|? ? Ht Hts]; subst.
  destruct (Nat.eqb_spec (Toasts.toast_id t) (S (Toasts.toastId store))); [lia|].
  simpl. f_equal. apply IH, Hts.
Qed.

(* ================================================================== *)
(** * Properties of the single-file Todo App *)

Section TodoAppFacts.

Lemma saveTodosToStorage_todos (app : TodoApp.App) :
  TodoApp.todos (TodoApp.saveTodosToStorage app) = TodoApp.todos app.
Proof.
  unfold TodoApp.saveTodosToStorage.
  destruct (setItem _ _); reflexivity.
Qed.

End TodoAppFacts.

(** X23: addTodo takes a text exactly when, trimmed, it has 3 to 120
    characters: then the new todo, not completed and with the trimmed text,
    is put in front; otherwise the todos and the storage stay as they are
    and an alert is shown. *)
Theorem addTodo_accepts_3_to_120
        (now newId : string) (app : TodoApp.App) (rawText : string) :
  let text := trim rawText in
  let app' := TodoApp.addTodo now newId app rawText in
  if (3 <=? String.length text)%nat && (String.length text <=? 120)%nat
  then TodoApp.todos app'
       = TodoApp.mkTodo newId text false now :: TodoApp.todos app
  else TodoApp.todos app' = TodoApp.todos app
       /\ TodoApp.storage app' = TodoApp.storage app
       /\ TodoApp.alert app' <> None.
Proof.
  intros text app'. subst app'. unfold TodoApp.addTodo, TodoApp.normalizeText.
  fold text.
  destruct text as [|c rest] eqn:E.
  - simpl. repeat split. discriminate.
  - cbn [truthy_string String.eqb negb].
    destruct (Nat.ltb_spec (String.length (String c rest)) 3) as [Hshort|Hlong].
    + replace (3 <=? String.length (String c rest))%nat with false
        by (symmetry; apply Nat.leb_gt; exact Hshort).
      simpl. repeat split. discriminate.
    + replace (3 <=? String.length (String c rest))%nat with true
        by (symmetry; apply Nat.leb_le; exact Hlong).
      destruct (Nat.ltb_spec 120 (String.length (String c rest))) as [Hbig|Hok].
      * replace (String.length (String c rest) <=? 120)%nat with false
          by (symmetry; apply Nat.leb_gt; exact Hbig).
        simpl. repeat split. discriminate.
      * replace (String.length (String c rest) <=? 120)%nat with true
          by (symmetry; apply Nat.leb_le; exact Hok).
        cbn [andb TodoApp.clearAlert TodoApp.todos].
        rewrite saveTodosToStorage_todos. reflexivity.
Qed.

(** X24: toggling the completion of an id twice gives the todos back as
    they were. *)
Theorem toggleTodoCompletion_twice (app : TodoApp.App) (id : string) :
  TodoApp.todos (TodoApp.toggleTodoCompletion (TodoApp.toggleTodoCompletion app id) id)
  = TodoApp.todos app.
Proof.
  unfold TodoApp.toggleTodoCompletion.
  rewrite !saveTodosToStorage_todos. cbn [TodoApp.with_todos TodoApp.todos].
  rewrite ?saveTodosToStorage_todos. cbn [TodoApp.with_todos TodoApp.todos].
  rewrite map_map. rewrite <- (map_id (TodoApp.todos app)) at 2.
  apply map_ext. intros [i t c d]. cbn [TodoApp.todo_id].
  destruct (i =? id) eqn:E; cbn [TodoApp.todo_id]; rewrite ?E; [|reflexivity].
  cbn. rewrite negb_involutive. reflexivity.
Qed.

(** X25: after clearCompletedTodos the todos are the ones that were not
    completed, in their order (all of them when none was completed): no
    completed todo is left, the active view is what it was, and a second
    call changes no todo. *)
Theorem clearCompletedTodos_keeps_active (app : TodoApp.App) :
  let app' := TodoApp.clearCompletedTodos app in
  TodoApp.todos app'
  = filter (fun todo => negb (TodoApp.isCompleted todo)) (TodoApp.todos app)
  /\ existsb TodoApp.isCompleted (TodoApp.todos app') = false
  /\ filter (fun todo => negb (TodoApp.isCompleted todo)) (TodoApp.todos app')
     = filter (fun todo => negb (TodoApp.isCompleted todo)) (TodoApp.todos app)
  /\ TodoApp.todos (TodoApp.clearCompletedTodos app') = TodoApp.todos app'.
Proof.
  assert (Hclear : forall a,
             TodoApp.todos (TodoApp.clearCompletedTodos a)
             = filter (fun todo => negb (TodoApp.isCompleted todo)) (TodoApp.todos a)).
  { intros a. unfold TodoApp.clearCompletedTodos.
    destruct (existsb TodoApp.isCompleted (TodoApp.todos a)) eqn:E;
      cbn [negb TodoApp.clearAlert TodoApp.showAlert TodoApp.todos].
    - rewrite saveTodosToStorage_todos. reflexivity.
    - clear -E. induction (TodoApp.todos a) as [|t ts IH]; simpl in *; [reflexivity|].
      apply orb_false_iff in E. destruct E as [Ht Hts].
      rewrite Ht. simpl. f_equal. apply IH, Hts. }
  assert (Hidem : forall l : list TodoApp.Todo,
             filter (fun todo => negb (TodoApp.isCompleted todo))
                    (filter (fun todo => negb (TodoApp.isCompleted todo)) l)
             = filter (fun todo => negb (TodoApp.isCompleted todo)) l).
  { induction l as [|t ts IH]; simpl; [reflexivity|].
    destruct (TodoApp.isCompleted t) eqn:Et; simpl; rewrite ?Et; simpl; rewrite IH;
      reflexivity. }
  intros app'. subst app'. rewrite !Hclear.
  repeat split.
  - induction (TodoApp.todos app) as [|t ts IH]; simpl; [reflexivity|].
    destruct (TodoApp.isCompleted t) eqn:Et; simpl; rewrite ?Et; exact IH.
  - apply Hidem.
  - apply Hidem.
Qed.

(** X26: with a storage that can be read and accepts the text written,
    what saveTodosToStorage writes is what loadTodosFromStorage returns,
    the empty list included. *)
Theorem loadTodosFromStorage_after_save (app : TodoApp.App) :
  readable (TodoApp.storage app) = true ->
  accepts (TodoApp.storage app)
          (stringify (VArr (map TodoApp.Todo_value (TodoApp.todos app)))) = true ->
  TodoApp.loadTodosFromStorage (TodoApp.storage (TodoApp.saveTodosToStorage app))
  = map TodoApp.Todo_value (TodoApp.todos app).
Proof.
  intros Hr Hw.
  unfold TodoApp.saveTodosToStorage, setItem. rewrite Hw.
  unfold TodoApp.loadTodosFromStorage, getItem.
  cbn [TodoApp.storage readable item]. rewrite Hr.
  cbn [bind stringify text_is_empty parse jsonOf try_catch].
  rewrite map_map. apply map_ext. intros t. reflexivity.
Qed.

Lemma loadTodosFromStorage_after_save_witness :
  TodoApp.loadTodosFromStorage
    (TodoApp.storage
       (TodoApp.saveTodosToStorage
          (TodoApp.mkApp [TodoApp.mkTodo "a1" "Buy milk" false sample_now]
                         "all" None empty_storage)))
  = [TodoApp.Todo_value (TodoApp.mkTodo "a1" "Buy milk" false sample_now)].
Proof.
  apply (loadTodosFromStorage_after_save
           (TodoApp.mkApp [TodoApp.mkTodo "a1" "Buy milk" false sample_now]
                          "all" None empty_storage));
    reflexivity.
Defined.

(* ================================================================== *)
(** * Properties of FocusList *)

Section FocusListFacts.

Variable env : FocusList.Env.

Lemma normalize_stamped (index : nat) (t : FocusList.Todo) :
  stamped t = true ->
  FocusList.normalize env index (jsonOf (FocusList.Todo_value t)) = Returns t.
Proof.
  destruct t as [i ti c cr up]. unfold stamped. cbn [FocusList.createdAt FocusList.updatedAt].
  destruct cr as [| | | |cs| |]; try discriminate.
  destruct up as [| | | |us| |]; try discriminate.
  intros H. apply andb_true_iff in H. destruct H as [Hc Hu].
  unfold FocusList.normalize, FocusList.Todo_value. cbn.
  unfold FocusList.or_value.
  repeat (cbn [FocusList.truthy_value]; rewrite ?Hu, ?Hc).
  reflexivity.
Qed.

Lemma normalizeAll_stamped (ts : list FocusList.Todo) :
  forallb stamped ts = true ->
  forall index,
    FocusList.normalizeAll env index (map jsonOf (map FocusList.Todo_value ts))
    = Returns ts.
Proof.
  induction ts as [|t ts IH]; intros Hall index; [reflexivity|].
  simpl in Hall. apply andb_true_iff in Hall. destruct Hall as [Ht Hts].
  cbn [map FocusList.normalizeAll].
  rewrite normalize_stamped by exact Ht. cbn [bind].
  rewrite IH by exact Hts. reflexivity.
Qed.

Lemma normalizeAll_nullish (items : list value) :
  existsb nullish items = true ->
  forall index, FocusList.normalizeAll env index items = Throws.
Proof.
  induction items as [|item items IH]; intros Hex index; [discriminate|].
  simpl in Hex. cbn [FocusList.normalizeAll].
  destruct item; try reflexivity; simpl in Hex;
    unfold FocusList.normalize, FocusList.member; cbn [bind];
    rewrite (IH Hex); reflexivity.
Qed.

Lemma normalizeAll_length (items : list value) :
  existsb nullish items = false ->
  forall index,
  exists ts, FocusList.normalizeAll env index items = Returns ts
             /\ List.length ts = List.length items
             /\ map FocusList.completed ts
                = map (fun item => FocusList.truthy_value (get item "completed")) items.
Proof.
  induction items as [|item items IH]; intros Hex index.
  - exists []. repeat split.
  - simpl in Hex. apply orb_false_iff in Hex. destruct Hex as [Hitem Hrest].
    destruct (IH Hrest (S index)) as (ts & Hts & Hlen & Hdone).
    cbn [FocusList.normalizeAll].
    destruct item; try discriminate;
      unfold FocusList.normalize, FocusList.member; cbn [bind]; rewrite Hts; cbn [bind];
        eexists; (split; [reflexivity|]); simpl; rewrite Hlen, Hdone; split; reflexivity.
Qed.

Lemma findIndex_nth (id_ : string) (ts : list FocusList.Todo) :
  match FocusList.findIndex id_ ts with
  | Some idx => exists t, nth_error ts idx = Some t /\ FocusList.id t = id_
  | None => forall t, In t ts -> FocusList.id t <> id_
  end.
Proof.
  induction ts as [|a ts IH]; simpl; [intros t []|].
  destruct (String.eqb_spec (FocusList.id a) id_) as [Heq|Hne].
  - exists a. split; [reflexivity|exact Heq].
  - destruct (FocusList.findIndex id_ ts) as [i|].
    + exact IH.
    + intros t [<-|Hin]; [exact Hne|apply IH, Hin].
Qed.

(** Replacing the first todo with an id by one of the same id leaves it
    the first with that id. *)
Lemma findIndex_replaceAt (id_ : string) (ts : list FocusList.Todo)
      (idx : nat) (u : FocusList.Todo) :
  FocusList.findIndex id_ ts = Some idx ->
  FocusList.id u = id_ ->
  FocusList.findIndex id_ (FocusList.replaceAt idx u ts) = Some idx.
Proof.
  revert idx. induction ts as [|a ts IH]; intros idx; simpl; [discriminate|].
  destruct (String.eqb_spec (FocusList.id a) id_) as [Heq|Hne].
  - intros [= <-] Hu. simpl. rewrite Hu, String.eqb_refl. reflexivity.
  - destruct (FocusList.findIndex id_ ts) as [i|] eqn:E; [|discriminate].
    intros [= <-] Hu. simpl.
    destruct (String.eqb_spec (FocusList.id a) id_); [contradiction|].
    rewrite (IH i eq_refl Hu). reflexivity.
Qed.

Lemma nth_error_replaceAt (ts : list FocusList.Todo) (idx : nat)
      (t u : FocusList.Todo) :
  nth_error ts idx = Some t ->
  nth_error (FocusList.replaceAt idx u ts) idx = Some u.
Proof.
  revert idx. induction ts as [|a ts IH]; intros [|i]; simpl; try discriminate.
  - reflexivity.
  - apply IH.
Qed.

Lemma replaceAt_replaceAt (ts : list FocusList.Todo) (idx : nat)
      (u v : FocusList.Todo) :
  FocusList.replaceAt idx v (FocusList.replaceAt idx u ts)
  = FocusList.replaceAt idx v ts.
Proof.
  revert idx. induction ts as [|a ts IH]; intros [|i]; simpl; try reflexivity.
  rewrite IH. reflexivity.
Qed.

Lemma map_replaceAt {B} (f : FocusList.Todo -> B) (ts : list FocusList.Todo)
      (idx : nat) (t u : FocusList.Todo) :
  nth_error ts idx = Some t -> f u = f t ->
  map f (FocusList.replaceAt idx u ts) = map f ts.
Proof.
  revert idx. induction ts as [|a ts IH]; intros [|i]; simpl; try discriminate.
  - intros [= <-] Hf. rewrite Hf. reflexivity.
  - intros Hn Hf. rewrite (IH i Hn Hf). reflexivity.
Qed.

End FocusListFacts.

(** X27: with a storage that can be read and accepts the text written,
    loadTodos right after saveTodos returns the todos that were saved and
    no error, for todos whose createdAt and updatedAt are non-empty
    strings. *)
Theorem loadTodos_after_saveTodos
        (env : FocusList.Env) (ls : FocusList.LocalStorage) (ts : list FocusList.Todo) :
  FocusList.readable ls = true ->
  FocusList.accepts ls (Some (stringify (VArr (map FocusList.Todo_value ts))))
                    (FocusList.theme_item ls) = true ->
  forallb stamped ts = true ->
  FocusList.loadTodos env (FocusList.saveTodos ls ts)
  = {| FocusList.todos := ts; FocusList.error := None |}.
Proof.
  intros Hr Hw Hts.
  unfold FocusList.saveTodos, FocusList.setTodosItem. cbn [bind]. rewrite Hw.
  unfold FocusList.loadTodos, FocusList.getTodosItem.
  cbn [try_catch FocusList.readable FocusList.todos_item]. rewrite Hr.
  cbn [bind stringify text_is_empty parse jsonOf].
  rewrite normalizeAll_stamped by exact Hts. reflexivity.
Qed.

Lemma loadTodos_after_saveTodos_witness :
  let todo := FocusList.mkTodo "todo_1" "Buy milk" false
                               (VStr sample_now) (VStr sample_now) in
  let ls := empty_focus_storage in
  FocusList.loadTodos (FocusList.mkEnv (fun _ => "g") (fun _ => "c") (fun _ => "u"))
                      (FocusList.saveTodos ls [todo])
  = {| FocusList.todos := [todo]; FocusList.error := None |}.
Proof.
  apply (loadTodos_after_saveTodos
           (FocusList.mkEnv (fun _ => "g") (fun _ => "c") (fun _ => "u"))
           (empty_focus_storage)
           [FocusList.mkTodo "todo_1" "Buy milk" false
                             (VStr sample_now) (VStr sample_now)]);
    reflexivity.
Defined.

(** X28: when the stored text is a JSON array, loadTodos keeps either all of
    it or nothing: if one element is null or undefined the list comes back
    empty with the corrupted-data message; otherwise there is no error and
    one todo per element, in order, completed exactly when the element's
    completed property is truthy. *)
Theorem loadTodos_all_or_nothing
        (env : FocusList.Env) (ls : FocusList.LocalStorage) (items : list value) :
  FocusList.readable ls = true ->
  FocusList.todos_item ls = Some (JSONText (VArr items)) ->
  let result := FocusList.loadTodos env ls in
  if existsb nullish items
  then result
       = {| FocusList.todos := [];
            FocusList.error :=
              Some "We had to reset your data because it looked corrupted." |}
  else FocusList.error result = None
       /\ List.length (FocusList.todos result) = List.length items
       /\ map FocusList.completed (FocusList.todos result)
          = map (fun item => FocusList.truthy_value (get item "completed")) items.
Proof.
  intros Hr Hitem result. subst result.
  unfold FocusList.loadTodos, FocusList.getTodosItem. rewrite Hr, Hitem.
  cbn [bind text_is_empty parse].
  destruct (existsb nullish items) eqn:E.
  - rewrite (normalizeAll_nullish env items E). reflexivity.
  - destruct (normalizeAll_length env items E 0) as (ts & Hts & Hlen & Hdone).
    rewrite Hts. cbn [bind try_catch FocusList.error FocusList.todos]. auto.
Qed.

Lemma loadTodos_all_or_nothing_witness :
  FocusList.loadTodos
    (FocusList.mkEnv (fun _ => "g") (fun _ => "c") (fun _ => "u"))
    (FocusList.mkLocalStorage true (fun _ _ => true)
       (Some (JSONText (VArr [VObj [("id", VStr "a")]; VNull]))) None)
  = {| FocusList.todos := [];
       FocusList.error :=
         Some "We had to reset your data because it looked corrupted." |}.
Proof.
  apply (loadTodos_all_or_nothing
           (FocusList.mkEnv (fun _ => "g") (fun _ => "c") (fun _ => "u"))
           (FocusList.mkLocalStorage true (fun _ _ => true)
              (Some (JSONText (VArr [VObj [("id", VStr "a")]; VNull]))) None)
           [VObj [("id", VStr "a")]; VNull]);
    reflexivity.
Defined.

(** X29: handleToggleTodo on an id no todo has changes neither the todos
    nor the storage; on an id some todo has, a second toggle gives the todos
    their ids, titles, completed flags and createdAt back. *)
Theorem handleToggleTodo_twice
        (now now' : string) (ts : list FocusList.Todo) (ls : FocusList.LocalStorage)
        (id_ : string) :
  let once := FocusList.handleToggleTodo now ts ls id_ in
  let twice := FocusList.handleToggleTodo now' (fst once) (snd once) id_ in
  ((forall t, In t ts -> FocusList.id t <> id_) -> once = (ts, ls))
  /\ map FocusList.id (fst twice) = map FocusList.id ts
  /\ map FocusList.title (fst twice) = map FocusList.title ts
  /\ map FocusList.completed (fst twice) = map FocusList.completed ts
  /\ map FocusList.createdAt (fst twice) = map FocusList.createdAt ts.
Proof.
  intros once twice. subst twice once. unfold FocusList.handleToggleTodo.
  pose proof (findIndex_nth id_ ts) as Hfind.
  destruct (FocusList.findIndex id_ ts) as [idx|] eqn:E.
  - destruct Hfind as (t & Hnth & Hid). rewrite Hnth. cbn [fst snd].
    set (u := {| FocusList.id := FocusList.id t;
                 FocusList.completed := negb (FocusList.completed t) |}).
    rewrite (findIndex_replaceAt id_ ts idx u E Hid).
    rewrite (nth_error_replaceAt ts idx t u Hnth). cbn [fst].
    rewrite replaceAt_replaceAt.
    split; [intros Hno; exfalso; apply (Hno t); [eapply nth_error_In; exact Hnth|exact Hid]|].
    repeat split; apply (map_replaceAt _ ts idx t); try exact Hnth; try reflexivity.
    subst u. cbn. apply negb_involutive.
  - cbn [fst snd]. rewrite E. cbn [fst]. repeat split.
Qed.

(** X30: with a storage that can be read and accepts the theme written,
    loadThemePreference after saveThemePreference returns the theme
    when it is "light" or "dark"; any other theme is not written, so the
    stored preference stays; and loadThemePreference never returns anything
    but "light", "dark" or nothing. *)
Theorem theme_preference_roundtrip (ls : FocusList.LocalStorage) (theme : string) :
  FocusList.readable ls = true ->
  FocusList.accepts ls (FocusList.todos_item ls) (Some theme) = true ->
  FocusList.loadThemePreference (FocusList.saveThemePreference ls theme)
  = (if (theme =? "light") || (theme =? "dark") then Some theme
     else FocusList.loadThemePreference ls)
  /\ (FocusList.loadThemePreference ls = None
      \/ FocusList.loadThemePreference ls = Some "light"
      \/ FocusList.loadThemePreference ls = Some "dark").
Proof.
  intros Hr Hw. split.
  - unfold FocusList.saveThemePreference, FocusList.setThemeItem. rewrite Hw.
    destruct ((theme =? "light") || (theme =? "dark")) eqn:E; cbn [try_catch];
      [|reflexivity].
    unfold FocusList.loadThemePreference, FocusList.getThemeItem.
    cbn [FocusList.readable FocusList.theme_item]. rewrite Hr. cbn [bind].
    rewrite E. reflexivity.
  - unfold FocusList.loadThemePreference, FocusList.getThemeItem. rewrite Hr.
    cbn [bind]. destruct (FocusList.theme_item ls) as [v|]; [|left; reflexivity].
    destruct (String.eqb_spec v "light") as [->|_]; [right; left; reflexivity|].
    destruct (String.eqb_spec v "dark") as [->|_]; [right; right; reflexivity|].
    left; reflexivity.
Qed.

Lemma theme_preference_roundtrip_witness :
  FocusList.loadThemePreference
    (FocusList.saveThemePreference (empty_focus_storage) "dark")
  = Some "dark"
  /\ (FocusList.loadThemePreference (empty_focus_storage) = None
      \/ FocusList.loadThemePreference (empty_focus_storage)
         = Some "light"
      \/ FocusList.loadThemePreference (empty_focus_storage)
         = Some "dark").
Proof.
  apply (theme_preference_roundtrip (empty_focus_storage) "dark");
    reflexivity.
Defined.
